(** * LSB image steganography: the engine of [backend/steganography.py]

    A shallow embedding of class [ImageSteganography] and the properties
    of its embed / extract / capacity / cipher operations.

    - Python [str] values that carry payloads are lists of code points;
      the bit strings built by [format(.., '08b')] and [str(v & 1)] are
      lists of the characters "0" and "1".
    - A numpy [uint8] array is its shape together with its elements in
      row-major (C) order; samples are integers of [0, 255].
    - The file system and the entropy source are the state threaded
      through every call; a Python exception is the [Raised] outcome.
    - PIL's mode conversion and the error it reports for a file it
      cannot open, [os.path], the entropy stream, PBKDF2, AES-GCM, base64
      and the UTF-8 codec are collaborators the engine calls but does not
      implement: they are the fields of [Platform]. *)

From Stdlib Require Import ZArith Ascii String Lia.
From Stdlib.Strings Require Import Byte.
From stdpp Require Import base list gmap strings pretty.

Local Open Scope Z_scope.

(** ** Python values *)

(** A [str]: its code points, as [ord] returns them. *)
Abbreviation pystr := (list N).

(** A [str] literal. *)
Definition py (s : string) : pystr := N_of_ascii <$> list_ascii_of_string s.

Definition ord (c : N) : N := c.
Definition chr (n : N) : pystr := [n].

(** Truth value of a [str] in [if password:]. *)
Definition truthy (s : pystr) : bool :=
  match s with [] => false | _ :: _ => true end.

(** Truth value of an argument that may also be [None]. *)
Definition truthy_opt (s : option pystr) : bool :=
  match s with None => false | Some s => truthy s end.

(** A [str] of binary digits. *)
Abbreviation bitstr := (list ascii).

(** A [bytes] object. *)
Abbreviation bytes := (list byte).

#[global] Instance byte_eq_decision : EqDecision byte := Byte.byte_eq_dec.

#[global] Instance nat_gt_decision : RelDecision gt := λ a b, decide (b < a)%nat.

(** [s[lo:hi]] for [0 <= lo <= hi]. *)
Definition slice {A} (lo hi : nat) (s : list A) : list A :=
  take (hi - lo) (drop lo s).

(** [range(0, stop, step)]. *)
Definition range_step (stop step : nat) : list nat :=
  (λ k, k * step)%nat <$> seq 0 ((stop + step - 1) / step)%nat.

(** [enumerate(s)]. *)
Definition enumerate {A} (s : list A) : list (nat * A) := imap pair s.

(** Binary digits of a positive number, most significant first. *)
Fixpoint bin_pos (p : positive) : bitstr :=
  match p with
  | xH => ["1"%char]
  | xO p' => bin_pos p' ++ ["0"%char]
  | xI p' => bin_pos p' ++ ["1"%char]
  end.

(** [format(n, 'b')]. *)
Definition bin (n : N) : bitstr :=
  match n with
  | N0 => ["0"%char]
  | Npos p => bin_pos p
  end.

(** [format(n, '08b')]: zero-padded on the left to a width of at least 8. *)
Definition format_08b (n : N) : bitstr :=
  replicate (8 - length (bin n)) "0"%char ++ bin n.

(** [int(bit)] on a binary digit. *)
Definition int_bit (bit : ascii) : Z :=
  if Ascii.eqb bit "1" then 1 else 0.

(** [int(byte, 2)] on a string of binary digits. *)
Definition int_base2 (byte : bitstr) : N :=
  foldl (λ acc c, 2 * acc + (if Ascii.eqb c "1" then 1 else 0))%N 0%N byte.

(** [str(n)] of an integer. *)
Definition str_int (n : Z) : bitstr := list_ascii_of_string (pretty n).

(** First position of [sub] in [s] at or after offset [i] of the string
    [s] was cut from. *)
Fixpoint find_from (sub s : bitstr) (i : nat) : option nat :=
  if bool_decide (sub `prefix_of` s) then Some i
  else match s with
       | [] => None
       | _ :: s' => find_from sub s' (S i)
       end.

(** [s.find(sub)]; [None] stands for the result [-1]. *)
Definition find (s sub : bitstr) : option nat := find_from sub s 0.

(** ** Exceptions and effects *)

(** A raised exception: its class and [str(e)]. *)
Record exn := Exn { exn_class : string; exn_msg : string }.

Definition ValueError (msg : string) : exn := Exn "ValueError" msg.
Definition Exception (msg : string) : exn := Exn "Exception" msg.

Inductive outcome (A : Type) : Type :=
| Returned (a : A)
| Raised (e : exn).
Arguments Returned {A} a.
Arguments Raised {A} e.

(** ** numpy arrays and PIL images *)

Record ndarray := NDArray { shape : list nat; buffer : list Z }.

(** [a.size]: the product of the dimensions. *)
Definition size (a : ndarray) : nat := foldr Nat.mul 1%nat (shape a).

(** [a.flatten()]: a fresh one-dimensional copy, row-major. *)
Definition flatten (a : ndarray) : list Z := buffer a.

(** [a.astype('uint8')] on an array that already is [uint8]. *)
Definition astype_uint8 (a : ndarray) : ndarray := a.

Definition uint8 (v : Z) : Prop := 0 <= v < 256.

(** The invariant numpy keeps: as many elements as the shape says, each
    an unsigned byte. *)
Definition ndarray_wf (a : ndarray) : Prop :=
  length (buffer a) = size a ∧ Forall uint8 (buffer a).

(** A decoded image: its mode and the array [np.array(img)] gives. *)
Record image := Image { mode : string; pixels : ndarray }.

Definition np_array (img : image) : ndarray := pixels img.

(** [Image.fromarray] on a (height, width, 3) array of [uint8]. *)
Definition Image_fromarray (a : ndarray) : image := Image "RGB" a.

(** [img.size]: (width, height). *)
Definition img_size (img : image) : nat * nat :=
  match shape (pixels img) with
  | h :: w :: _ => (w, h)
  | _ => (0%nat, 0%nat)
  end.

(** The state a call runs in: the image files by path (PNG is lossless,
    so a file is the image it decodes to) and how many bytes of the
    entropy stream have been consumed. A path that is not among the
    image files holds nothing, or something that is no image; the engine
    writes nothing but images, so what is there stays as it is. *)
Record world := World { files : gmap string image; drawn : nat }.

(** A computation: from a state to an outcome and the state it leaves. *)
Definition M (A : Type) : Type := world → outcome A * world.

Definition ret {A} (a : A) : M A := λ w, (Returned a, w).
Definition raise {A} (e : exn) : M A := λ w, (Raised e, w).
Definition bind {A B} (c : M A) (k : A → M B) : M B :=
  λ w, match c w with
       | (Returned a, w') => k a w'
       | (Raised e, w') => (Raised e, w')
       end.

(** [try: c except Exception as e: h e]. State changes made before the
    exception stay. *)
Definition try_except {A} (c : M A) (h : exn → M A) : M A :=
  λ w, match c w with
       | (Returned a, w') => (Returned a, w')
       | (Raised e, w') => h e w'
       end.

(** A library call that may raise, run inside a computation. *)
Definition lift {A} (o : outcome A) : M A := λ w, (o, w).

Notation "'let!' x ':=' c 'in' k" := (bind c (λ x, k))
  (at level 10, x name, c at level 100, k at level 200).
Notation "c ';;' k" := (bind c (λ _, k))
  (at level 100, k at level 200, right associativity).

(** [img.save(path, 'PNG')]; the write itself is taken to succeed. *)
Definition Image_save (img : image) (path : string) : M unit :=
  λ w, (Returned tt, World (<[path := img]> (files w)) (drawn w)).

(** [flat.reshape(shp)]. *)
Definition reshape (flat : list Z) (shp : list nat) : M ndarray :=
  if decide (length flat = foldr Nat.mul 1%nat shp) then ret (NDArray shp flat)
  else raise (ValueError
                ("cannot reshape array of size " +:+ pretty (length flat))).

(** ** Collaborators *)

(** What the engine calls and does not implement. A library call that can
    raise returns an [outcome]. *)
Class Platform := {
  (** the exception [Image.open] raises at a path where it finds no image:
      [FileNotFoundError] where nothing is, [UnidentifiedImageError] where
      the file is no image, [IsADirectoryError], [PermissionError], ... *)
  Image_open_error : string → exn;
  (** [img.convert('RGB')] *)
  convert_RGB : image → image;
  (** [os.path.dirname], [os.path.basename], [os.path.join] *)
  os_path_dirname : string → string;
  os_path_basename : string → string;
  os_path_join : string → string → string;
  (** the byte the entropy source delivers at each position of its stream *)
  urandom : nat → byte;
  (** [PBKDF2(password, salt, dkLen, count=count)] *)
  PBKDF2 : pystr → bytes → nat → N → outcome bytes;
  (** AES-GCM under a key and a nonce: the ciphertext of a plaintext, the
      plaintext of a ciphertext, and the tag of a ciphertext *)
  gcm_encrypt : bytes → bytes → bytes → bytes;
  gcm_decrypt : bytes → bytes → bytes → bytes;
  gcm_digest : bytes → bytes → bytes → bytes;
  (** [base64.b64encode], [base64.b64decode] *)
  b64encode : bytes → bytes;
  b64decode : bytes → outcome bytes;
  (** [s.encode('utf-8')], [b.decode('utf-8')] *)
  utf8_encode : pystr → outcome bytes;
  utf8_decode : bytes → outcome pystr;
}.

Section Engine.
Context `{Platform}.

(** [Image.open(path)]: the image the file decodes to, or the exception
    of a path that holds none. *)
Definition Image_open (path : string) : M image :=
  λ w, match files w !! path with
       | Some img => (Returned img, w)
       | None => (Raised (Image_open_error path), w)
       end.

(** [get_random_bytes(n)]: the next [n] bytes of the entropy stream. *)
Definition get_random_bytes (n : nat) : M bytes :=
  λ w, (Returned (urandom <$> seq (drawn w) n),
        World (files w) (drawn w + n)%nat).

(** An AES-GCM cipher object: its key and its nonce. *)
Record gcm_cipher := GCM { cipher_key : bytes; cipher_nonce : bytes }.

(** [AES.new(key, AES.MODE_GCM)]: a fresh 16-byte nonce is drawn. *)
Definition AES_new (key : bytes) : M gcm_cipher :=
  let! nonce := get_random_bytes 16 in
  ret (GCM key nonce).

(** [AES.new(key, AES.MODE_GCM, nonce=nonce)]: an empty nonce is refused.
    The key is the 32 bytes asked of PBKDF2, a length AES accepts. *)
Definition AES_new_nonce (key nonce : bytes) : M gcm_cipher :=
  match nonce with
  | [] => raise (ValueError "Nonce cannot be empty")
  | _ :: _ => ret (GCM key nonce)
  end.

(** [cipher.encrypt_and_digest(plaintext)]. *)
Definition encrypt_and_digest (cipher : gcm_cipher) (plaintext : bytes)
  : bytes * bytes :=
  let ciphertext := gcm_encrypt (cipher_key cipher) (cipher_nonce cipher) plaintext in
  (ciphertext, gcm_digest (cipher_key cipher) (cipher_nonce cipher) ciphertext).

(** [cipher.decrypt_and_verify(ciphertext, tag)]: the verification draws
    16 bytes from the entropy source, the key under which the received
    tag and the tag of the ciphertext are hashed before they are compared
    (the hashes are taken to differ when the tags do); the plaintext is
    handed out only when the tags agree. *)
Definition decrypt_and_verify (cipher : gcm_cipher) (ciphertext tag : bytes)
  : M bytes :=
  get_random_bytes 16;;
  if decide (tag = gcm_digest (cipher_key cipher) (cipher_nonce cipher) ciphertext)
  then ret (gcm_decrypt (cipher_key cipher) (cipher_nonce cipher) ciphertext)
  else raise (ValueError "MAC check failed").

(** ** class ImageSteganography *)

(** [self.delimiter] *)
Definition delimiter : bitstr := list_ascii_of_string "1111111111111110".

(** The body of [_encrypt_data]'s [try]. *)
Definition _encrypt_data_body (data : pystr) (password : pystr) : M pystr :=
  let! salt := get_random_bytes 16 in
  let! key := lift (PBKDF2 password salt 32 100000%N) in
  let! cipher := AES_new key in
  let! plaintext := lift (utf8_encode data) in
  let '(ciphertext, tag) := encrypt_and_digest cipher plaintext in
  let! encrypted_data :=
    lift (utf8_decode
            (b64encode (salt ++ cipher_nonce cipher ++ tag ++ ciphertext))) in
  ret encrypted_data.

Definition _encrypt_data (data : pystr) (password : pystr) : M pystr :=
  try_except (_encrypt_data_body data password)
    (λ e, raise (Exception ("Encryption failed: " +:+ exn_msg e))).

(** The body of [_decrypt_data]'s [try]. *)
Definition _decrypt_data_body (encrypted_data : pystr) (password : pystr)
  : M pystr :=
  let! encoded := lift (utf8_encode encrypted_data) in
  let! encrypted_bytes := lift (b64decode encoded) in
  let salt := slice 0 16 encrypted_bytes in
  let nonce := slice 16 32 encrypted_bytes in
  let tag := slice 32 48 encrypted_bytes in
  let ciphertext := drop 48 encrypted_bytes in
  let! key := lift (PBKDF2 password salt 32 100000%N) in
  let! cipher := AES_new_nonce key nonce in
  let! decrypted_data := decrypt_and_verify cipher ciphertext tag in
  lift (utf8_decode decrypted_data).

Definition _decrypt_data (encrypted_data : pystr) (password : pystr) : M pystr :=
  try_except (_decrypt_data_body encrypted_data password)
    (λ e, raise (Exception ("Decryption failed: " +:+ exn_msg e))).

(** One turn of the embedding loop:
    [if i < len(flat_img): flat_img[i] = (flat_img[i] & 0xFE) | int(bit)]. *)
Definition embed_step (flat_img : list Z) (ib : nat * ascii) : list Z :=
  let '(i, bit) := ib in
  if decide (i < length flat_img)%nat then
    match flat_img !! i with
    | Some v => <[i := Z.lor (Z.land v 254) (int_bit bit)]> flat_img
    | None => flat_img
    end
  else flat_img.

(** [for i, bit in enumerate(binary_data): ...] *)
Definition embed_loop (binary_data : bitstr) (flat_img : list Z) : list Z :=
  foldl embed_step flat_img (enumerate binary_data).

(** [''.join(format(ord(char), '08b') for char in data_to_hide)] *)
Definition to_binary (data_to_hide : pystr) : bitstr :=
  concat ((λ char, format_08b (ord char)) <$> data_to_hide).

(** [if img.mode != 'RGB': img = img.convert('RGB')] *)
Definition rgb_view (img : image) : image :=
  if decide (mode img ≠ "RGB") then convert_RGB img else img.

(** [img = Image.open(image_path)], then the conversion. *)
Definition open_rgb (image_path : string) : M image :=
  let! img := Image_open image_path in
  ret (rgb_view img).

(** [data_to_hide]: the secret itself, or its encrypted envelope when a
    password is given. *)
Definition data_to_hide_of (secret_data password : pystr) : M pystr :=
  if truthy password then _encrypt_data secret_data password
  else ret secret_data.

(** Where the image is saved: [output_path], or next to the input under
    the name prefixed by [stego_] when [output_path is None]. *)
Definition output_path_of (output_path : option string) (image_path : string)
  : string :=
  match output_path with
  | Some p => p
  | None => os_path_join (os_path_dirname image_path)
              ("stego_" +:+ os_path_basename image_path)
  end.

(** The body of [hide_data]'s [try]. *)
Definition hide_data_body (image_path : string) (secret_data password : pystr)
    (output_path : option string) : M (option string) :=
  let! img := open_rgb image_path in
  let! data_to_hide := data_to_hide_of secret_data password in
  let binary_data := to_binary data_to_hide ++ delimiter in
  let img_array := np_array img in
  let max_capacity := size img_array in
  if decide (length binary_data > max_capacity)%nat then
    raise (ValueError ("Image too small. Need " +:+ pretty (length binary_data) +:+
                       " bits, have " +:+ pretty max_capacity))
  else
    let flat_img := embed_loop binary_data (flatten img_array) in
    let! modified_img_array := reshape flat_img (shape img_array) in
    let output_img := Image_fromarray (astype_uint8 modified_img_array) in
    let output_path := output_path_of output_path image_path in
    Image_save output_img output_path;;
    ret (Some output_path).

(** [hide_data]: any exception of the body is printed and [None] is
    returned in its place. The messages printed are left out. *)
Definition hide_data (image_path : string) (secret_data password : pystr)
    (output_path : option string) : M (option string) :=
  try_except (hide_data_body image_path secret_data password output_path)
    (λ e, ret None).

(** [for pixel_value in img_array: binary_data += str(pixel_value & 1)] *)
Definition extract_lsbs (img_array : list Z) : bitstr :=
  foldl (λ binary_data pixel_value, binary_data ++ str_int (Z.land pixel_value 1))
    [] img_array.

(** The decoding loop over [range(0, len(actual_binary_data), 8)], from
    the turn for the first index of [idxs] on; [break] returns the text
    gathered so far. *)
Fixpoint decode_loop (actual_binary_data : bitstr) (idxs : list nat)
    (extracted_text : pystr) : pystr :=
  match idxs with
  | [] => extracted_text
  | i :: idxs' =>
      let byte := slice i (i + 8) actual_binary_data in
      if decide (length byte = 8%nat) then
        let char_code := int_base2 byte in
        if decide (0 <= char_code <= 127)%N then
          decode_loop actual_binary_data idxs' (extracted_text ++ chr char_code)
        else extracted_text
      else decode_loop actual_binary_data idxs' extracted_text
  end.

Definition decode_text (actual_binary_data : bitstr) : pystr :=
  decode_loop actual_binary_data (range_step (length actual_binary_data) 8) [].

(** The body of [extract_data]'s [try]. *)
Definition extract_data_body (image_path : string) (password : option pystr)
  : M pystr :=
  let! img := open_rgb image_path in
  let img_array := flatten (np_array img) in
  let binary_data := extract_lsbs img_array in
  match find binary_data delimiter with
  | None => raise (ValueError "No hidden data found or data corrupted")
  | Some delimiter_index =>
      let actual_binary_data := take delimiter_index binary_data in
      if decide (length actual_binary_data `mod` 8 ≠ 0)%nat then
        raise (ValueError "Invalid data length - not divisible by 8")
      else
        let extracted_text := decode_text actual_binary_data in
        let! extracted_text :=
          (if truthy_opt password then
             try_except
               (_decrypt_data extracted_text (default [] password))
               (λ _, raise (ValueError "Incorrect password or corrupted encrypted data"))
           else ret extracted_text) in
        if negb (truthy extracted_text) then
          raise (ValueError "No valid data could be extracted")
        else ret extracted_text
  end.

Definition extract_data (image_path : string) (password : option pystr)
  : M pystr :=
  try_except (extract_data_body image_path password)
    (λ e, raise (Exception ("Data extraction failed: " +:+ exn_msg e))).

(** The dictionary [analyze_image_capacity] returns. *)
Record capacity_report := CapacityReport {
  total_pixels : nat;
  max_characters : Z;
  max_bytes : Z;
  image_dimensions : nat * nat;
}.

Definition analyze_image_capacity (image_path : string) : M capacity_report :=
  try_except
    (let! img := open_rgb image_path in
     let img_array := np_array img in
     let total_pixels := size img_array in
     let max_chars := (Z.of_nat total_pixels - Z.of_nat (length delimiter)) `div` 8 in
     ret (CapacityReport total_pixels max_chars max_chars (img_size img)))
    (λ e, raise (Exception ("Image analysis failed: " +:+ exn_msg e))).

End Engine.

(** ** Vocabulary of the statements *)

(** A binary digit. *)
Definition is_bit (c : ascii) : Prop := c = "0"%char ∨ c = "1"%char.

(** The sample the embedding loop writes over [v] for a bit. *)
Definition set_lsb (v : Z) (bit : ascii) : Z := Z.lor (Z.land v 254) (int_bit bit).

(** The digit [str(v & 1)] consists of. *)
Definition lsb_char (v : Z) : ascii := if Z.odd v then "1"%char else "0"%char.

(** The byte the decoding loop reconstructs at bit offset [i]. *)
Definition byte_at (actual : bitstr) (i : nat) : N :=
  int_base2 (slice i (i + 8) actual).

(** The bytes before the marker, in the order the loop meets them. *)
Definition reconstructed (actual : bitstr) : list N :=
  byte_at actual <$> range_step (length actual) 8.

(** The codes up to, and without, the first one above 127. *)
Fixpoint ascii_prefix (codes : list N) : pystr :=
  match codes with
  | [] => []
  | c :: codes' => if decide (c <= 127)%N then c :: ascii_prefix codes' else []
  end.

(** The image [hide_data] saves for a bit string that fits. *)
Definition stego_image `{Platform} (img : image) (binary_data : bitstr) : image :=
  Image "RGB"
    (NDArray (shape (np_array (rgb_view img)))
       (embed_loop binary_data (flatten (np_array (rgb_view img))))).

(** ** utils.py: what the routes check before and after the engine *)

(** [str(n)] of an integer, as a [str]. *)
Definition str_of_int (n : Z) : pystr := py (pretty n).

(** One hexadecimal digit, lowercase. *)
Definition hex_digit (d : N) : N := (if d <? 10 then 48 + d else 87 + d)%N.

(** [secrets.token_hex(n)] once the [n] random bytes are drawn: two
    lowercase hexadecimal digits per byte. *)
Definition token_hex (random : bytes) : pystr :=
  random ≫= λ b, [hex_digit (Byte.to_N b `div` 16); hex_digit (Byte.to_N b `mod` 16)].

(** [generate_image_id()], from the clock reading
    [int(datetime.now().timestamp())] and the 8 bytes [token_hex(8)]
    draws. *)
Definition generate_image_id (timestamp : Z) (random : bytes) : pystr :=
  py "IMG-" ++ str_of_int timestamp ++ py "-" ++ token_hex random.

(** The atoms of the pattern: each matches one character. *)
Inductive re_atom :=
| Lit (c : N)
| Digit
| Class (ranges : list (N * N)).

Section Regex.
(** [\d] on a [str] pattern: the Unicode decimal digits. *)
Variable unicode_decimal : N → bool.

Definition atom_matches (a : re_atom) (c : N) : bool :=
  match a with
  | Lit x => (c =? x)%N
  | Digit => unicode_decimal c
  | Class ranges => existsb (λ r, (fst r <=? c)%N && (c <=? snd r)%N) ranges
  end.

(** Matching a sequence of atoms at the start of [s]: what is left of [s]. *)
Fixpoint match_atoms (p : list re_atom) (s : pystr) : option pystr :=
  match p with
  | [] => Some s
  | a :: p' =>
      match s with
      | c :: s' => if atom_matches a c then match_atoms p' s' else None
      | [] => None
      end
  end.

(** [$]: at the end of the string, or before a newline that ends it. *)
Definition at_end (s : pystr) : bool :=
  match s with
  | [] => true
  | [c] => (c =? 10)%N
  | _ => false
  end.

(** [r'^IMG-\d{10}-[a-f0-9]{16}$'] without its anchors. *)
Definition image_id_pattern : list re_atom :=
  (Lit <$> py "IMG-") ++ replicate 10 Digit ++ [Lit 45%N]
  ++ replicate 16 (Class [(97, 102); (48, 57)]%N).

(** [bool(re.match(pattern, image_id))] *)
Definition re_match_image_id (image_id : pystr) : bool :=
  match match_atoms image_id_pattern image_id with
  | Some rest => at_end rest
  | None => false
  end.

Definition validate_image_id (image_id : pystr) : bool :=
  if negb (truthy image_id) then false else re_match_image_id image_id.

End Regex.

(** The decimal digits of ASCII: what [\d] matches below code point 128. *)
Definition ascii_decimal (c : N) : bool := (48 <=? c)%N && (c <=? 57)%N.

(** [ALLOWED_EXTENSIONS] *)
Definition ALLOWED_EXTENSIONS : list pystr :=
  py <$> ["png"; "jpg"; "jpeg"; "gif"; "bmp"; "tiff"; "webp"]%string.

(** The start of [s] up to the first [sep]. *)
Fixpoint before_first (sep : N) (s : pystr) : pystr :=
  match s with
  | [] => []
  | c :: s' => if (c =? sep)%N then [] else c :: before_first sep s'
  end.

(** [s.rsplit(sep, 1)[1]] for a string that holds [sep]: what follows
    its last [sep]. *)
Definition rsplit_last (sep : N) (s : pystr) : pystr :=
  reverse (before_first sep (reverse s)).

Section Filenames.
(** [s.lower()] *)
Variable str_lower : pystr → pystr.

Definition allowed_file (filename : pystr) : bool :=
  if negb (truthy filename) then false
  else
    let file_extension :=
      if bool_decide (46%N ∈ filename) then str_lower (rsplit_last 46 filename)
      else [] in
    bool_decide (file_extension ∈ ALLOWED_EXTENSIONS).

End Filenames.

(** ** A platform to run examples on

    Stand-ins with the interface of the collaborators, simple enough to
    evaluate: every path without an image is a missing file, the mode is
    relabelled, paths are joined by concatenation, the key is cut from
    the password, padded with zero bytes the way HMAC pads its key, and
    the salt, the cipher is the identity with the key and the nonce as
    its tag, and the text codecs map a byte to the code point of the same
    value. None of the properties of the codec below depends on them. *)
Module Example.

Definition byte_of_N (n : N) : byte := default x00 (Byte.of_N (n `mod` 256)%N).

(** Two hexadecimal digits. *)
Definition hex2 (n : N) : string :=
  String (ascii_of_N (hex_digit (n `div` 16)))
    (String (ascii_of_N (hex_digit (n `mod` 16))) "").

(** One character of [repr(s)] between the quotes [quote]. *)
Definition repr_char (quote c : ascii) : string :=
  let n := N_of_ascii c in
  let backslash := "092"%char in
  if Ascii.eqb c quote || Ascii.eqb c backslash then String backslash (String c "")
  else if Ascii.eqb c "009" then String backslash "t"
  else if Ascii.eqb c "010" then String backslash "n"
  else if Ascii.eqb c "013" then String backslash "r"
  else if (n <? 32)%N || (n =? 127)%N || ((128 <=? n)%N && (n <=? 160)%N)
          || (n =? 173)%N
       then String backslash ("x" +:+ hex2 n)
  else String c "".

(** [repr(s)] of a [str] of code points below 256: between double quotes
    when [s] holds a single quote and no double quote, between single
    quotes otherwise; the quote in use, the backslash and the characters
    that do not print are escaped. *)
Definition repr (s : string) : string :=
  let chars := list_ascii_of_string s in
  let quote :=
    if bool_decide ("'"%char ∈ chars) && negb (bool_decide ("034"%char ∈ chars))
    then "034"%char else "'"%char in
  String quote (String.concat "" (repr_char quote <$> chars) +:+ String quote "").

(** The key HMAC makes of a password: zero bytes up to the block size of
    64 (a longer password, which HMAC hashes first, is cut). *)
Definition hmac_key (password : pystr) : bytes :=
  take 64 ((byte_of_N <$> password) ++ replicate 64 x00).

#[export] Instance platform : Platform := {|
  Image_open_error path :=
    Exn "FileNotFoundError" ("[Errno 2] No such file or directory: " +:+ repr path);
  convert_RGB img := Image "RGB" (pixels img);
  os_path_dirname p := "";
  os_path_basename p := p;
  os_path_join a b := a +:+ b;
  urandom i := byte_of_N (N.of_nat i);
  PBKDF2 password salt dkLen count :=
    Returned (take dkLen (take 16 (hmac_key password) ++ salt ++ replicate dkLen x00));
  gcm_encrypt key nonce plaintext := plaintext;
  gcm_decrypt key nonce ciphertext := ciphertext;
  gcm_digest key nonce ciphertext := take 16 (key ++ nonce ++ replicate 16 x00);
  b64encode b := b;
  b64decode b := Returned b;
  utf8_encode s := Returned (byte_of_N <$> s);
  utf8_decode b := Returned (Byte.to_N <$> b);
|}.

(** A 10 x 10 RGB image: 300 samples. *)
Definition carrier : image :=
  Image "RGB" (NDArray [10; 10; 3]%nat ((λ i, Z.of_nat ((i * 7) `mod` 256)) <$> seq 0 300)).

Definition disk : world := World {["in.png" := carrier]} 0.

(** The disk after [secret_data] was hidden, without a password, in the
    carrier. *)
Definition disk_with (secret_data : pystr) : world :=
  snd (hide_data "in.png" secret_data [] (Some "out.png") disk).

Definition stego_with (secret_data : pystr) : image :=
  stego_image carrier (to_binary secret_data ++ delimiter).

(** The envelope of "hi" under the password "a". *)
Definition envelope : pystr :=
  match fst (_encrypt_data (py "hi") (py "a") disk) with
  | Returned env => env
  | Raised _ => []
  end.

(** A 20 x 20 RGB image: 1200 samples, room for an envelope. *)
Definition carrier_big : image :=
  Image "RGB" (NDArray [20; 20; 3]%nat
                 ((λ i, Z.of_nat ((i * 11) `mod` 256)) <$> seq 0 1200)).

Definition disk_big : world := World {["in.png" := carrier_big]} 0.

(** The big disk after [secret_data] was hidden without a password. *)
Definition disk_big_with (secret_data : pystr) : world :=
  snd (hide_data "in.png" secret_data [] (Some "out.png") disk_big).

Definition stego_big_with (secret_data : pystr) : image :=
  stego_image carrier_big (to_binary secret_data ++ delimiter).

(** Lowercase of ASCII letters, other characters kept. *)
Definition ascii_lower (s : pystr) : pystr :=
  (λ c, if (65 <=? c)%N && (c <=? 90)%N then c + 32 else c)%N <$> s.

(** A 2 x 2 RGB image: 12 samples, too few for the marker. *)
Definition carrier_tiny : image :=
  Image "RGB" (NDArray [2; 2; 3]%nat (replicate 12 255)).

Definition disk_tiny : world := World {["in.png" := carrier_tiny]} 0.

End Example.

(** * Properties *)

(** ** Binary digits *)

Lemma is_bit_0 : is_bit "0"%char.
Proof. by left. Qed.

Lemma is_bit_1 : is_bit "1"%char.
Proof. by right. Qed.

Lemma bin_pos_bits p : Forall is_bit (bin_pos p).
Proof.
  induction p as [p IH|p IH|]; simpl;
    rewrite ?Forall_app; repeat split; auto using is_bit_0, is_bit_1.
Qed.

Lemma format_08b_bits n : Forall is_bit (format_08b n).
Proof.
  unfold format_08b. apply Forall_app; split.
  - apply Forall_replicate, is_bit_0.
  - destruct n as [|p]; simpl; [|apply bin_pos_bits]. auto using is_bit_0.
Qed.

Lemma length_bin_pos p : length (bin_pos p) = Pos.size_nat p.
Proof.
  induction p as [p IH|p IH|]; simpl; rewrite ?length_app, ?IH; simpl; lia.
Qed.

Lemma size_nat_bound (k : nat) p :
  (Npos p < 2 ^ N.of_nat k)%N → (Pos.size_nat p ≤ k)%nat.
Proof.
  revert p. induction k as [|k IH]; intros p Hp.
  - simpl in Hp. lia.
  - rewrite Nat2N.inj_succ, N.pow_succ_r' in Hp.
    destruct p as [p|p|]; simpl; [| |lia].
    + apply le_n_S, IH. lia.
    + apply le_n_S, IH. lia.
Qed.

Lemma length_bin n (k : nat) :
  (0 < k)%nat → (n < 2 ^ N.of_nat k)%N → (length (bin n) ≤ k)%nat.
Proof.
  intros Hk Hn. destruct n as [|p]; simpl; [lia|].
  rewrite length_bin_pos. by apply size_nat_bound.
Qed.

Lemma length_format_08b n : (n < 256)%N → length (format_08b n) = 8%nat.
Proof.
  intros Hn. unfold format_08b. rewrite length_app, length_replicate.
  pose proof (length_bin n 8 ltac:(lia) Hn). lia.
Qed.

Lemma format_08b_ascii n :
  (n <= 127)%N → ∃ tl, format_08b n = "0"%char :: tl ∧ length tl = 7%nat.
Proof.
  intros Hn. pose proof (length_format_08b n ltac:(lia)) as Hlen.
  pose proof (length_bin n 7 ltac:(lia) ltac:(change (2 ^ N.of_nat 7)%N with 128%N; lia)) as Hb.
  unfold format_08b in *.
  destruct (8 - length (bin n))%nat as [|m] eqn:Hm; [lia|].
  simpl in *. eexists; split; [reflexivity|]. lia.
Qed.

Lemma int_base2_snoc s c :
  int_base2 (s ++ [c]) = (2 * int_base2 s + (if Ascii.eqb c "1" then 1 else 0))%N.
Proof. unfold int_base2. by rewrite foldl_snoc. Qed.

Lemma int_base2_bin_pos p : int_base2 (bin_pos p) = Npos p.
Proof.
  induction p as [p IH|p IH|]; simpl; [| |reflexivity];
    rewrite int_base2_snoc, IH; simpl; lia.
Qed.

Lemma int_base2_zeros k s :
  int_base2 (replicate k "0"%char ++ s) = int_base2 s.
Proof.
  unfold int_base2. rewrite foldl_app.
  replace (foldl _ 0%N (replicate k "0"%char)) with 0%N; [done|].
  induction k as [|k IH]; simpl; [done|]. exact IH.
Qed.

Lemma int_base2_format_08b n : int_base2 (format_08b n) = n.
Proof.
  unfold format_08b. rewrite int_base2_zeros.
  destruct n as [|p]; [reflexivity|apply int_base2_bin_pos].
Qed.

(** ** The sample written by the embedding loop *)

Lemma int_bit_range bit : int_bit bit = 0 ∨ int_bit bit = 1.
Proof. unfold int_bit. destruct (Ascii.eqb _ _); auto. Qed.

Lemma land_254 v : uint8 v → Z.land v 254 = 2 * (v `div` 2).
Proof.
  intros [Hlo Hhi]. apply Z.bits_inj'. intros n Hn.
  rewrite Z.land_spec.
  destruct (decide (n = 0)) as [->|Hn0].
  { rewrite Z.testbit_even_0. apply andb_false_r. }
  replace n with (Z.succ (n - 1)) at 3 by lia.
  rewrite Z.testbit_even_succ by lia.
  rewrite <- Z.div2_div, Z.div2_spec, Z.shiftr_spec by lia.
  replace (n - 1 + 1) with n by lia.
  destruct (decide (n < 8)) as [Hlt|Hge].
  - assert (n = 1 ∨ n = 2 ∨ n = 3 ∨ n = 4 ∨ n = 5 ∨ n = 6 ∨ n = 7) as Hc by lia.
    destruct Hc as [->|[->|[->|[->|[->|[->| ->]]]]]]; apply andb_true_r.
  - assert (Z.testbit v n = false) as ->; [|done].
    apply (proj1 (Z.bounded_iff_bits_nonneg 8 v ltac:(lia) Hlo)); [|lia].
    change (2 ^ 8) with 256. lia.
Qed.

Lemma set_lsb_eq v bit : uint8 v → set_lsb v bit = 2 * (v `div` 2) + int_bit bit.
Proof.
  intros Hv. unfold set_lsb. rewrite land_254 by done.
  symmetry. apply Z.add_nocarry_lor.
  apply Z.bits_inj'. intros n Hn. rewrite Z.land_spec, Z.bits_0.
  destruct (decide (n = 0)) as [->|Hn0].
  { by rewrite Z.testbit_even_0. }
  assert (Z.testbit (int_bit bit) n = false) as ->; [|apply andb_false_r].
  destruct (int_bit_range bit) as [-> | ->].
  - apply Z.bits_0.
  - change 1 with (2 ^ 0). apply Z.pow2_bits_false. lia.
Qed.

Lemma set_lsb_shiftr v bit : uint8 v → set_lsb v bit ≫ 1 = v ≫ 1.
Proof.
  intros Hv. rewrite set_lsb_eq by done.
  rewrite !Z.shiftr_div_pow2 by lia. change (2 ^ 1) with 2.
  destruct (int_bit_range bit) as [-> | ->].
  - rewrite Z.add_0_r, Z.mul_comm, Z.div_mul; lia.
  - rewrite Z.mul_comm, Z.div_add_l by lia. change (1 `div` 2) with 0. lia.
Qed.

Lemma set_lsb_uint8 v bit : uint8 v → uint8 (set_lsb v bit).
Proof.
  intros Hv. rewrite set_lsb_eq by done. destruct Hv as [Hlo Hhi].
  unfold uint8. pose proof (Z.div_mod v 2 ltac:(lia)).
  pose proof (Z.mod_pos_bound v 2 ltac:(lia)).
  destruct (int_bit_range bit) as [-> | ->]; lia.
Qed.

Lemma set_lsb_close v bit : uint8 v → Z.abs (set_lsb v bit - v) <= 1.
Proof.
  intros Hv. rewrite set_lsb_eq by done.
  pose proof (Z.div_mod v 2 ltac:(lia)).
  pose proof (Z.mod_pos_bound v 2 ltac:(lia)).
  destruct (int_bit_range bit) as [-> | ->]; lia.
Qed.

(** The least significant bit of the written sample is the embedded bit,
    whatever the sample was. *)
Lemma set_lsb_land_1 v bit : Z.land (set_lsb v bit) 1 = int_bit bit.
Proof.
  unfold set_lsb. apply Z.bits_inj'. intros n Hn.
  rewrite Z.land_spec, Z.lor_spec, Z.land_spec.
  destruct (decide (n = 0)) as [->|Hn0].
  - change (Z.testbit 254 0) with false. change (Z.testbit 1 0) with true.
    rewrite andb_false_r, andb_true_r. done.
  - assert (Z.testbit 1 n = false) as ->.
    { change 1 with (2 ^ 0). apply Z.pow2_bits_false. lia. }
    rewrite andb_false_r. symmetry.
    destruct (int_bit_range bit) as [-> | ->].
    + apply Z.bits_0.
    + change 1 with (2 ^ 0). apply Z.pow2_bits_false. lia.
Qed.

(** ** The embedding loop *)

Lemma enumerate_snoc {A} (s : list A) (x : A) :
  enumerate (s ++ [x]) = enumerate s ++ [(length s, x)].
Proof.
  unfold enumerate. rewrite imap_app. simpl. by rewrite Nat.add_0_r.
Qed.

Lemma embed_loop_snoc bits bit flat :
  embed_loop (bits ++ [bit]) flat = embed_step (embed_loop bits flat) (length bits, bit).
Proof. unfold embed_loop. by rewrite enumerate_snoc, foldl_snoc. Qed.

Lemma embed_loop_spec bits flat :
  embed_loop bits flat = zip_with set_lsb flat bits ++ drop (length bits) flat.
Proof.
  induction bits as [|bit bits IH] using rev_ind.
  - unfold embed_loop. simpl. destruct flat; by rewrite ?drop_0.
  - rewrite embed_loop_snoc, IH. clear IH.
    assert (length (zip_with set_lsb flat bits ++ drop (length bits) flat)
            = length flat) as Hlen.
    { rewrite length_app, length_zip_with, length_drop. lia. }
    unfold embed_step. rewrite Hlen, length_app. simpl.
    rewrite zip_with_app_r. rewrite zip_with_take_l.
    destruct (decide (length bits < length flat)%nat) as [Hlt|Hge].
    + destruct (lookup_lt_is_Some_2 flat (length bits) Hlt) as [v Hv].
      assert (length (zip_with set_lsb flat bits) = length bits) as Hz.
      { rewrite length_zip_with. lia. }
      rewrite lookup_app_r by lia. rewrite Hz, Nat.sub_diag.
      rewrite (drop_S _ _ _ Hv). simpl.
      rewrite insert_app_r_alt by lia. rewrite Hz, Nat.sub_diag. simpl.
      rewrite <- app_assoc. simpl. rewrite zip_with_nil_r. simpl. by rewrite Nat.add_1_r.
    + rewrite (drop_ge flat (length bits)) by lia.
      rewrite (drop_ge flat (length bits + 1)) by lia.
      simpl. by rewrite !app_nil_r.
Qed.

Lemma length_embed_loop bits flat : length (embed_loop bits flat) = length flat.
Proof.
  rewrite embed_loop_spec, length_app, length_zip_with, length_drop. lia.
Qed.

Lemma embed_loop_lookup_ge bits flat i :
  (length bits ≤ i)%nat → embed_loop bits flat !! i = flat !! i.
Proof.
  intros Hi. rewrite embed_loop_spec.
  destruct (decide (length bits ≤ length flat)%nat) as [Hle|Hgt].
  - rewrite lookup_app_r; rewrite length_zip_with; [|lia].
    rewrite lookup_drop. f_equal. lia.
  - rewrite drop_ge, app_nil_r by lia.
    rewrite !lookup_ge_None_2; [done|lia|]. rewrite length_zip_with. lia.
Qed.

Lemma embed_loop_lookup_lt bits flat i bit v :
  bits !! i = Some bit → flat !! i = Some v →
  embed_loop bits flat !! i = Some (set_lsb v bit).
Proof.
  intros Hb Hv. rewrite embed_loop_spec.
  pose proof (lookup_lt_Some _ _ _ Hb). pose proof (lookup_lt_Some _ _ _ Hv).
  rewrite lookup_app_l by (rewrite length_zip_with; lia).
  rewrite lookup_zip_with, Hv. simpl. by rewrite Hb.
Qed.

(** ** Reading the least significant bits *)

Lemma str_int_land_1 v : str_int (Z.land v 1) = [lsb_char v].
Proof.
  unfold lsb_char. change 1 with (Z.ones 1). rewrite Z.land_ones by lia.
  change (2 ^ 1) with 2. rewrite Zmod_odd. by destruct (Z.odd v).
Qed.

Lemma extract_lsbs_spec flat : extract_lsbs flat = lsb_char <$> flat.
Proof.
  unfold extract_lsbs.
  induction flat as [|v flat IH] using rev_ind; [done|].
  by rewrite foldl_snoc, IH, str_int_land_1, fmap_app.
Qed.

Lemma lsb_char_set_lsb v bit : is_bit bit → lsb_char (set_lsb v bit) = bit.
Proof.
  intros Hbit. unfold lsb_char.
  rewrite <- Z.bit0_odd.
  assert (Z.testbit (set_lsb v bit) 0 = Z.testbit (int_bit bit) 0) as ->.
  { rewrite <- (set_lsb_land_1 v bit). rewrite Z.land_spec.
    change (Z.testbit 1 0) with true. by rewrite andb_true_r. }
  by destruct Hbit as [-> | ->].
Qed.

Lemma lsb_char_embedded bits flat :
  Forall is_bit bits → (length bits ≤ length flat)%nat →
  lsb_char <$> zip_with set_lsb flat bits = bits.
Proof.
  intros Hbits. revert flat.
  induction Hbits as [|bit bits Hbit _ IH]; intros flat Hlen.
  - by destruct flat.
  - destruct flat as [|v flat]; simpl in *; [lia|].
    rewrite lsb_char_set_lsb by done. f_equal. apply IH. lia.
Qed.

(** What the extraction reads back from an embedded buffer: the bits
    written, then the bits the carrier already had. *)
Lemma extract_lsbs_embed_loop bits flat :
  Forall is_bit bits → (length bits ≤ length flat)%nat →
  extract_lsbs (embed_loop bits flat)
  = bits ++ extract_lsbs (drop (length bits) flat).
Proof.
  intros Hbits Hlen.
  rewrite !extract_lsbs_spec, embed_loop_spec, fmap_app.
  by rewrite lsb_char_embedded.
Qed.

(** ** Searching the marker *)

Lemma find_from_first sub s i k :
  (∀ j, (j < k)%nat → ¬ sub `prefix_of` drop j s) →
  sub `prefix_of` drop k s →
  find_from sub s i = Some (i + k)%nat.
Proof.
  revert s i. induction k as [|k IH]; intros s i Hno Hat.
  - rewrite drop_0 in Hat. destruct s; simpl; rewrite bool_decide_eq_true_2; auto with f_equal lia.
  - assert (¬ sub `prefix_of` s) as Hs.
    { specialize (Hno 0%nat ltac:(lia)). by rewrite drop_0 in Hno. }
    destruct s as [|c s]; simpl.
    + rewrite bool_decide_eq_false_2 by done. simpl in Hat. done.
    + rewrite bool_decide_eq_false_2 by done.
      rewrite (IH s (S i)); [f_equal; lia| |done].
      intros j Hj. apply (Hno (S j)). lia.
Qed.

Lemma find_from_None sub s i :
  (∀ j, ¬ sub `prefix_of` drop j s) → find_from sub s i = None.
Proof.
  revert i. induction s as [|c s IH]; intros i Hno; simpl.
  - rewrite bool_decide_eq_false_2; [done|]. apply (Hno 0%nat).
  - rewrite bool_decide_eq_false_2 by apply (Hno 0%nat).
    apply IH. intros j. apply (Hno (S j)).
Qed.

Lemma find_from_Some sub s i r :
  find_from sub s i = Some r →
  ∃ k, r = (i + k)%nat ∧ sub `prefix_of` drop k s
       ∧ ∀ j, (j < k)%nat → ¬ sub `prefix_of` drop j s.
Proof.
  revert i. induction s as [|c s IH]; intros i Hf; simpl in Hf.
  - case_bool_decide; [|done]. exists 0%nat. simplify_eq.
    split; [lia|]. split; [done|]. intros; lia.
  - case_bool_decide as Hp.
    + exists 0%nat. simplify_eq. split; [lia|]. split; [done|]. intros; lia.
    + destruct (IH _ Hf) as (k & -> & Hk & Hno).
      exists (S k). split; [lia|]. split; [done|].
      intros [|j] Hj; [done|]. simpl. apply Hno. lia.
Qed.

Lemma prefix_lookup {A} (sub s : list A) i t x :
  sub `prefix_of` drop i s → sub !! t = Some x → s !! (i + t)%nat = Some x.
Proof.
  intros [rest Hrest] Hx. rewrite <- lookup_drop, Hrest.
  by apply lookup_app_l_Some.
Qed.

Lemma delimiter_eq : delimiter = replicate 15 "1"%char ++ ["0"%char].
Proof. reflexivity. Qed.

Lemma delimiter_ones t : (t < 15)%nat → delimiter !! t = Some "1"%char.
Proof.
  intros Ht. rewrite delimiter_eq, lookup_app_l by (rewrite length_replicate; lia).
  by apply lookup_replicate_2.
Qed.

Lemma delimiter_zero : delimiter !! 15%nat = Some "0"%char.
Proof. reflexivity. Qed.

Lemma length_delimiter : length delimiter = 16%nat.
Proof. reflexivity. Qed.

Lemma delimiter_bits : Forall is_bit delimiter.
Proof.
  rewrite delimiter_eq. apply Forall_app. split.
  - apply Forall_replicate, is_bit_1.
  - apply Forall_singleton, is_bit_0.
Qed.

Lemma to_binary_cons c data :
  to_binary (c :: data) = format_08b c ++ to_binary data.
Proof. reflexivity. Qed.


(** The bit string of ASCII text: every eighth position holds a "0". *)
Lemma to_binary_ascii_lookup data q :
  Forall (λ c, c <= 127)%N data → (q < length data)%nat →
  to_binary data !! (8 * q)%nat = Some "0"%char.
Proof.
  intros Hdata. revert q.
  induction Hdata as [|c data Hc _ IH]; intros q Hq; simpl in Hq; [lia|].
  rewrite to_binary_cons.
  destruct (format_08b_ascii c Hc) as (tl & -> & Htl).
  destruct q as [|q]; [done|].
  rewrite lookup_app_r by (simpl; lia).
  replace (8 * S q - length ("0"%char :: tl))%nat with (8 * q)%nat by (simpl; lia).
  apply IH. lia.
Qed.

Lemma length_to_binary data :
  Forall (λ c, c < 256)%N data → length (to_binary data) = (8 * length data)%nat.
Proof.
  intros Hdata.
  induction Hdata as [|c data Hc _ IH]; [done|].
  rewrite to_binary_cons, length_app, IH, length_format_08b by done. simpl. lia.
Qed.

Lemma to_binary_bits data : Forall is_bit (to_binary data).
Proof.
  induction data as [|c data IH]; [constructor|].
  rewrite to_binary_cons. apply Forall_app. split; [apply format_08b_bits|done].
Qed.

(** In the bit string of ASCII text followed by the marker, the marker
    is found where the text ends. *)
Lemma find_delimiter_ascii data rest :
  Forall (λ c, c <= 127)%N data →
  find (to_binary data ++ delimiter ++ rest) delimiter
  = Some (length (to_binary data)).
Proof.
  intros Hdata. unfold find.
  assert (Forall (λ c, c < 256)%N data) as Hdata'.
  { eapply Forall_impl; [exact Hdata|]. simpl. lia. }
  pose proof (length_to_binary data Hdata') as Hlen.
  rewrite (find_from_first _ _ 0 (length (to_binary data))); [done| |].
  - intros j Hj Hpre.
    set (q := ((j + 7) / 8)%nat).
    assert (j ≤ 8 * q ∧ 8 * q ≤ j + 7)%nat as [Hq1 Hq2].
    { pose proof (Nat.div_mod_eq (j + 7) 8). pose proof (Nat.mod_upper_bound (j + 7) 8).
      unfold q. lia. }
    clearbody q.
    destruct (decide (q < length data)%nat) as [Hin|Hout].
    + pose proof (prefix_lookup _ _ j (8 * q - j) _ Hpre
                    (delimiter_ones (8 * q - j) ltac:(lia))) as Hone.
      replace (j + (8 * q - j))%nat with (8 * q)%nat in Hone by lia.
      rewrite lookup_app_l in Hone by lia.
      rewrite to_binary_ascii_lookup in Hone by done. done.
    + pose proof (prefix_lookup _ _ j 15 _ Hpre delimiter_zero) as Hzero.
      rewrite lookup_app_r in Hzero by lia.
      rewrite lookup_app_l in Hzero by (rewrite length_delimiter; lia).
      rewrite delimiter_ones in Hzero by lia. done.
  - rewrite drop_app_length. by apply prefix_app_r.
Qed.

(** ** Decoding the bytes before the marker *)

Lemma length_slice_8 (actual : bitstr) i :
  (i + 8 ≤ length actual)%nat → length (slice i (i + 8) actual) = 8%nat.
Proof. intros Hi. unfold slice. rewrite length_take, length_drop. lia. Qed.

Lemma decode_loop_spec actual idxs text :
  Forall (λ i, i + 8 ≤ length actual)%nat idxs →
  decode_loop actual idxs text = text ++ ascii_prefix (byte_at actual <$> idxs).
Proof.
  intros Hidx. revert text.
  induction Hidx as [|i idxs Hi _ IH]; intros text; simpl.
  - by rewrite app_nil_r.
  - rewrite decide_True by by apply length_slice_8.
    fold (byte_at actual i).
    destruct (decide (0 <= byte_at actual i <= 127)%N) as [Hc|Hc].
    + rewrite decide_True by lia. rewrite IH. unfold chr. by rewrite <- app_assoc.
    + rewrite decide_False by lia. by rewrite app_nil_r.
Qed.

Lemma range_step_8_bound n i :
  (n `mod` 8 = 0)%nat → i ∈ range_step n 8 → (i + 8 ≤ n)%nat.
Proof.
  intros Hn Hi. unfold range_step in Hi.
  apply list_elem_of_fmap in Hi as (k & -> & Hk).
  apply elem_of_seq in Hk.
  pose proof (Nat.div_mod_eq (n + 8 - 1) 8).
  pose proof (Nat.mod_upper_bound (n + 8 - 1) 8).
  pose proof (Nat.div_mod_eq n 8). lia.
Qed.

Lemma decode_text_spec actual :
  (length actual `mod` 8 = 0)%nat →
  decode_text actual = ascii_prefix (reconstructed actual).
Proof.
  intros Hlen. unfold decode_text, reconstructed.
  rewrite decode_loop_spec; [done|].
  apply Forall_forall. intros i Hi. by apply range_step_8_bound.
Qed.

Lemma range_step_8_add n :
  range_step (8 + n) 8 = 0%nat :: ((λ i, 8 + i)%nat <$> range_step n 8).
Proof.
  unfold range_step.
  replace ((8 + n + 8 - 1) / 8)%nat with (S ((n + 8 - 1) / 8)).
  2:{ replace (8 + n + 8 - 1)%nat with (1 * 8 + (n + 8 - 1))%nat by lia.
      rewrite Nat.div_add_l by lia. lia. }
  simpl. f_equal. rewrite <- fmap_S_seq, <- !list_fmap_compose.
  apply list_fmap_ext. intros _ k _. simpl. lia.
Qed.

Lemma byte_at_app_0 chunk rest :
  length chunk = 8%nat → byte_at (chunk ++ rest) 0 = int_base2 chunk.
Proof.
  intros Hc. unfold byte_at, slice. rewrite drop_0. simpl.
  by rewrite <- Hc, take_app_length.
Qed.

Lemma byte_at_app_add chunk rest i :
  length chunk = 8%nat → byte_at (chunk ++ rest) (8 + i) = byte_at rest i.
Proof.
  intros Hc. unfold byte_at, slice. rewrite <- Hc, drop_app_add.
  do 2 f_equal. lia.
Qed.

Lemma reconstructed_to_binary data :
  Forall (λ c, c < 256)%N data → reconstructed (to_binary data) = data.
Proof.
  intros Hdata. induction Hdata as [|c data Hc Hdata IH]; [done|].
  unfold reconstructed in *.
  rewrite to_binary_cons, length_app, length_format_08b by done.
  rewrite range_step_8_add, fmap_cons, byte_at_app_0 by by apply length_format_08b.
  rewrite int_base2_format_08b. f_equal.
  rewrite <- list_fmap_compose. etrans; [|exact IH].
  apply list_fmap_ext. intros _ i _. simpl.
  by apply byte_at_app_add, length_format_08b.
Qed.

Lemma ascii_prefix_all codes :
  Forall (λ c, c <= 127)%N codes → ascii_prefix codes = codes.
Proof.
  induction 1 as [|c codes Hc _ IH]; [done|].
  simpl. by rewrite decide_True, IH.
Qed.

Lemma ascii_prefix_stop pre c post :
  Forall (λ c, c <= 127)%N pre → (127 < c)%N →
  ascii_prefix (pre ++ c :: post) = pre.
Proof.
  intros Hpre Hc. induction Hpre as [|x pre Hx _ IH]; simpl.
  - rewrite decide_False; [done|lia].
  - by rewrite decide_True, IH.
Qed.

Lemma decode_text_to_binary data :
  Forall (λ c, c < 256)%N data →
  decode_text (to_binary data) = ascii_prefix data.
Proof.
  intros Hdata. rewrite decode_text_spec.
  - by rewrite reconstructed_to_binary.
  - rewrite length_to_binary by done. by rewrite Nat.mul_comm, Nat.Div0.mod_mul.
Qed.

(** ** Running a call *)

Section Effects.
Context `{Platform}.

Lemma open_rgb_Some w image_path img :
  files w !! image_path = Some img →
  open_rgb image_path w = (Returned (rgb_view img), w).
Proof. intros Hf. unfold open_rgb, bind, Image_open. by rewrite Hf. Qed.

Lemma open_rgb_None w image_path :
  files w !! image_path = None →
  open_rgb image_path w = (Raised (Image_open_error image_path), w).
Proof. intros Hf. unfold open_rgb, bind, Image_open. by rewrite Hf. Qed.

Lemma rgb_view_RGB a : rgb_view (Image "RGB" a) = Image "RGB" a.
Proof. reflexivity. Qed.

Lemma get_random_bytes_files n w :
  files (snd (get_random_bytes n w)) = files w.
Proof. reflexivity. Qed.

Lemma _encrypt_data_body_files data password w :
  files (snd (_encrypt_data_body data password w)) = files w.
Proof.
  unfold _encrypt_data_body, bind, lift, AES_new, bind, get_random_bytes, ret. simpl.
  destruct (PBKDF2 _ _ _ _); simpl; [|done].
  destruct (utf8_encode _); simpl; [|done].
  destruct (utf8_decode _); simpl; done.
Qed.

Lemma _encrypt_data_files data password w :
  files (snd (_encrypt_data data password w)) = files w.
Proof.
  unfold _encrypt_data, try_except.
  pose proof (_encrypt_data_body_files data password w) as Hb.
  destruct (_encrypt_data_body data password w) as [[?|?] ?]; done.
Qed.

Lemma data_to_hide_of_files secret_data password w :
  files (snd (data_to_hide_of secret_data password w)) = files w.
Proof.
  unfold data_to_hide_of. destruct (truthy password); [|done].
  apply _encrypt_data_files.
Qed.

Lemma data_to_hide_of_plain secret_data w :
  data_to_hide_of secret_data [] w = (Returned secret_data, w).
Proof. reflexivity. Qed.

End Effects.

(** ** The cipher *)

Section Cipher.
Context `{Platform}.

(** [_decrypt_data]'s body once the text is encoded and base64-decoded:
    the key is derived, the nonce checked, the tag verified under fresh
    entropy, and only then the plaintext decoded. *)
Lemma _decrypt_data_body_run encrypted_data password w encoded encrypted_bytes :
  utf8_encode encrypted_data = Returned encoded →
  b64decode encoded = Returned encrypted_bytes →
  _decrypt_data_body encrypted_data password w =
    match PBKDF2 password (slice 0 16 encrypted_bytes) 32 100000%N with
    | Raised e => (Raised e, w)
    | Returned key =>
        match slice 16 32 encrypted_bytes with
        | [] => (Raised (ValueError "Nonce cannot be empty"), w)
        | nonce =>
            if decide (slice 32 48 encrypted_bytes
                       = gcm_digest key nonce (drop 48 encrypted_bytes))
            then (utf8_decode (gcm_decrypt key nonce (drop 48 encrypted_bytes)),
                  World (files w) (drawn w + 16))
            else (Raised (ValueError "MAC check failed"),
                  World (files w) (drawn w + 16))
        end
    end.
Proof.
  intros Henc Hdec. unfold _decrypt_data_body, bind, lift.
  rewrite Henc, Hdec.
  destruct (PBKDF2 _ _ _ _) as [key|e]; [|done].
  destruct (slice 16 32 encrypted_bytes) as [|b nonce] eqn:Hnonce; [done|].
  unfold AES_new_nonce, decrypt_and_verify, bind, get_random_bytes, ret, raise.
  simpl. by destruct (decide _).
Qed.

(** Every way through [_decrypt_data]: the first step that fails ends the
    call with its message after "Decryption failed: "; the entropy of the
    verification is drawn once the nonce is accepted. *)
Lemma _decrypt_data_run encrypted_data password w :
  _decrypt_data encrypted_data password w =
    match utf8_encode encrypted_data with
    | Raised e => (Raised (Exception ("Decryption failed: " +:+ exn_msg e)), w)
    | Returned encoded =>
        match b64decode encoded with
        | Raised e => (Raised (Exception ("Decryption failed: " +:+ exn_msg e)), w)
        | Returned encrypted_bytes =>
            let nonce := slice 16 32 encrypted_bytes in
            let ciphertext := drop 48 encrypted_bytes in
            match PBKDF2 password (slice 0 16 encrypted_bytes) 32 100000%N with
            | Raised e =>
                (Raised (Exception ("Decryption failed: " +:+ exn_msg e)), w)
            | Returned key =>
                if decide (nonce = []) then
                  (Raised (Exception "Decryption failed: Nonce cannot be empty"), w)
                else if decide (slice 32 48 encrypted_bytes
                                = gcm_digest key nonce ciphertext) then
                  (match utf8_decode (gcm_decrypt key nonce ciphertext) with
                   | Raised e =>
                       Raised (Exception ("Decryption failed: " +:+ exn_msg e))
                   | Returned text => Returned text
                   end, World (files w) (drawn w + 16))
                else
                  (Raised (Exception "Decryption failed: MAC check failed"),
                   World (files w) (drawn w + 16))
            end
        end
    end.
Proof.
  destruct (utf8_encode encrypted_data) as [encoded|e] eqn:Henc.
  - destruct (b64decode encoded) as [encrypted_bytes|e] eqn:Hdec.
    + unfold _decrypt_data, try_except.
      rewrite (_decrypt_data_body_run _ password w _ _ Henc Hdec). cbv zeta.
      destruct (PBKDF2 _ _ _ _) as [key|e]; [|done].
      destruct (slice 16 32 encrypted_bytes) as [|b nonce] eqn:Hnonce.
      * by rewrite decide_True.
      * rewrite (decide_False (P := b :: nonce = [])) by done.
        destruct (decide _); [|done].
        by destruct (utf8_decode _).
    + unfold _decrypt_data, try_except, _decrypt_data_body, bind, lift.
      by rewrite Henc, Hdec.
  - unfold _decrypt_data, try_except, _decrypt_data_body, bind, lift.
    by rewrite Henc.
Qed.

Lemma _decrypt_data_files encrypted_data password w :
  files (snd (_decrypt_data encrypted_data password w)) = files w.
Proof.
  rewrite _decrypt_data_run. cbv zeta.
  destruct (utf8_encode _); [|done].
  destruct (b64decode _); [|done].
  destruct (PBKDF2 _ _ _ _); [|done].
  repeat case_decide; done.
Qed.

Lemma _decrypt_data_drawn encrypted_data password w :
  drawn (snd (_decrypt_data encrypted_data password w)) = drawn w
  ∨ drawn (snd (_decrypt_data encrypted_data password w)) = (drawn w + 16)%nat.
Proof.
  rewrite _decrypt_data_run. cbv zeta.
  destruct (utf8_encode _); [|by left].
  destruct (b64decode _); [|by left].
  destruct (PBKDF2 _ _ _ _); [|by left].
  repeat case_decide; first [by left|by right].
Qed.

(** No envelope at all: the nonce is empty, or the key derivation
    refuses; no entropy is drawn. *)
Lemma _decrypt_data_empty password w :
  utf8_encode [] = Returned [] →
  b64decode [] = Returned [] →
  ∃ msg, _decrypt_data [] password w
         = (Raised (Exception ("Decryption failed: " +:+ msg)), w).
Proof.
  intros Henc Hdec. rewrite _decrypt_data_run, Henc, Hdec. cbv zeta.
  change (slice 16 32 (@nil byte)) with (@nil byte).
  destruct (PBKDF2 _ _ _ _); [|by eexists].
  rewrite decide_True by done. by eexists.
Qed.

Lemma slice_short {A} (l : list A) lo hi :
  (length l < hi)%nat → (lo < hi)%nat → (length (slice lo hi l) < hi - lo)%nat.
Proof. intros Hl Hlo. unfold slice. rewrite length_take, length_drop. lia. Qed.

(** C6, as amended: decryption fails whenever base64 decoding fails or
    the decoded envelope is shorter than the 48 bytes of salt, nonce and
    tag, but by no check of the length and with no error of its own: the
    call raises the one exception of [_decrypt_data], "Decryption failed:
    ..." followed by the cause. The cause is the error of the base64
    decoder; for an envelope shorter than 48 bytes it is the error of the
    key derivation when that raises, otherwise "Nonce cannot be empty"
    for at most 16 bytes, and otherwise "MAC check failed", the error of
    a wrong password, raised by the verification after it drew its 16
    bytes of entropy. The tag of the cipher is taken to be 16 bytes
    long. *)
Theorem malformed_envelope_is_rejected encrypted_data password w encoded :
  (∀ key nonce ciphertext, length (gcm_digest key nonce ciphertext) = 16%nat) →
  utf8_encode encrypted_data = Returned encoded →
  (∀ e, b64decode encoded = Raised e →
        _decrypt_data encrypted_data password w
        = (Raised (Exception ("Decryption failed: " +:+ exn_msg e)), w))
  ∧ (∀ encrypted_bytes,
       b64decode encoded = Returned encrypted_bytes →
       (length encrypted_bytes < 48)%nat →
       _decrypt_data encrypted_data password w =
         match PBKDF2 password (take 16 encrypted_bytes) 32 100000%N with
         | Raised e =>
             (Raised (Exception ("Decryption failed: " +:+ exn_msg e)), w)
         | Returned _ =>
             if decide (length encrypted_bytes ≤ 16)%nat then
               (Raised (Exception "Decryption failed: Nonce cannot be empty"), w)
             else
               (Raised (Exception "Decryption failed: MAC check failed"),
                World (files w) (drawn w + 16))
         end).
Proof.
  intros Htaglen Henc. split.
  - intros e Hdec. by rewrite _decrypt_data_run, Henc, Hdec.
  - intros encrypted_bytes Hdec Hshort.
    rewrite _decrypt_data_run, Henc, Hdec. cbv zeta.
    change (slice 0 16 encrypted_bytes) with (take 16 (drop 0 encrypted_bytes)).
    rewrite drop_0.
    destruct (PBKDF2 _ _ _ _) as [key|e]; [|done].
    destruct (decide (length encrypted_bytes ≤ 16)%nat) as [Hle|Hgt].
    + rewrite decide_True; [done|].
      apply length_zero_iff_nil. unfold slice. rewrite length_take, length_drop. lia.
    + rewrite decide_False.
      * rewrite decide_False; [done|]. intros Heq.
        apply (f_equal length) in Heq. rewrite Htaglen in Heq.
        pose proof (slice_short encrypted_bytes 32 48 Hshort ltac:(lia)). lia.
      * intros Hnil. apply (f_equal length) in Hnil. unfold slice in Hnil.
        rewrite length_take, length_drop in Hnil. cbn [length] in Hnil. lia.
Qed.

(** What [_encrypt_data] returned when it returned: the envelope text
    decodes from the base64 of salt, nonce, tag and ciphertext. *)
Lemma _encrypt_data_Returned data password w env w1 :
  _encrypt_data data password w = (Returned env, w1) →
  let salt := urandom <$> seq (drawn w) 16 in
  let nonce := urandom <$> seq (drawn w + 16) 16 in
  ∃ key plaintext,
    PBKDF2 password salt 32 100000%N = Returned key
    ∧ utf8_encode data = Returned plaintext
    ∧ utf8_decode
        (b64encode (salt ++ nonce
                    ++ gcm_digest key nonce (gcm_encrypt key nonce plaintext)
                    ++ gcm_encrypt key nonce plaintext)) = Returned env.
Proof.
  unfold _encrypt_data, try_except, _encrypt_data_body, bind, lift, AES_new,
    bind, get_random_bytes, ret, raise. simpl.
  destruct (PBKDF2 _ _ _ _) as [key|]; [|done].
  destruct (utf8_encode data) as [plaintext|]; [|done]. simpl.
  destruct (utf8_decode _) as [text|] eqn:Htext; [|done].
  intros Heq. simplify_eq. eauto.
Qed.

Lemma envelope_slices (salt nonce tag ciphertext : bytes) :
  length salt = 16%nat → length nonce = 16%nat → length tag = 16%nat →
  let encrypted_bytes := salt ++ nonce ++ tag ++ ciphertext in
  slice 0 16 encrypted_bytes = salt
  ∧ slice 16 32 encrypted_bytes = nonce
  ∧ slice 32 48 encrypted_bytes = tag
  ∧ drop 48 encrypted_bytes = ciphertext.
Proof.
  intros Hs Hn Ht. unfold slice. simpl.
  split; [|split; [|split]].
  - by rewrite drop_0, take_app_length'.
  - rewrite drop_app_length' by done. by rewrite take_app_length'.
  - rewrite (drop_app_add' salt _ 16 16) by done.
    rewrite drop_app_length' by done. by rewrite take_app_length'.
  - rewrite (drop_app_add' salt _ 16 32) by done.
    rewrite (drop_app_add' nonce _ 16 16) by done.
    by rewrite drop_app_length'.
Qed.

(** Decrypting, under any password, an envelope that [_encrypt_data]
    made: the salt, the nonce, the tag and the ciphertext come back out
    of it, and what is left to decide is whether the key of the password
    gives the ciphertext the tag of the envelope. *)
Lemma _decrypt_data_envelope S P1 P2 w env w1 w2 :
  (∀ b, b64decode (b64encode b) = Returned b) →
  (∀ b, utf8_decode b = Returned env → utf8_encode env = Returned b) →
  (∀ key nonce ciphertext, length (gcm_digest key nonce ciphertext) = 16%nat) →
  _encrypt_data S P1 w = (Returned env, w1) →
  let salt := urandom <$> seq (drawn w) 16 in
  let nonce := urandom <$> seq (drawn w + 16) 16 in
  ∃ key1 plaintext,
    PBKDF2 P1 salt 32 100000%N = Returned key1
    ∧ utf8_encode S = Returned plaintext
    ∧ let ciphertext := gcm_encrypt key1 nonce plaintext in
      _decrypt_data env P2 w2 =
        match PBKDF2 P2 salt 32 100000%N with
        | Raised e => (Raised (Exception ("Decryption failed: " +:+ exn_msg e)), w2)
        | Returned key2 =>
            if decide (gcm_digest key1 nonce ciphertext
                       = gcm_digest key2 nonce ciphertext) then
              (match utf8_decode (gcm_decrypt key2 nonce ciphertext) with
               | Raised e =>
                   Raised (Exception ("Decryption failed: " +:+ exn_msg e))
               | Returned text => Returned text
               end, World (files w2) (drawn w2 + 16))
            else
              (Raised (Exception "Decryption failed: MAC check failed"),
               World (files w2) (drawn w2 + 16))
        end.
Proof.
  intros Hb64 Hutf8 Htaglen Henc salt nonce.
  destruct (_encrypt_data_Returned _ _ _ _ _ Henc)
    as (key1 & plaintext & Hk1 & Hpt & Henv).
  fold salt nonce in Hk1, Henv.
  exists key1, plaintext. split; [done|]. split; [done|]. cbv zeta.
  assert (length salt = 16%nat) as Hsalt
    by (unfold salt; by rewrite length_fmap, length_seq).
  assert (length nonce = 16%nat) as Hnonce
    by (unfold nonce; by rewrite length_fmap, length_seq).
  destruct (envelope_slices salt nonce
              (gcm_digest key1 nonce (gcm_encrypt key1 nonce plaintext))
              (gcm_encrypt key1 nonce plaintext) Hsalt Hnonce (Htaglen _ _ _))
    as (Hs1 & Hs2 & Hs3 & Hs4).
  rewrite _decrypt_data_run, (Hutf8 _ Henv), Hb64. cbv zeta.
  rewrite Hs1, Hs2, Hs3, Hs4.
  destruct (PBKDF2 P2 salt 32 100000%N) as [key2|e]; [|done].
  rewrite decide_False; [done|].
  intros Hnil. by rewrite Hnil in Hnonce.
Qed.

(** [extract_data] on an image whose text before the marker is [text],
    with a password: the outcome of [_decrypt_data] decides. *)
Lemma extract_data_with_password w image_path img P idx text :
  files w !! image_path = Some img →
  truthy P = true →
  let binary_data := extract_lsbs (flatten (np_array (rgb_view img))) in
  find binary_data delimiter = Some idx →
  (length (take idx binary_data) `mod` 8 = 0)%nat →
  decode_text (take idx binary_data) = text →
  extract_data image_path (Some P) w =
    match _decrypt_data text P w with
    | (Raised _, w') =>
        (Raised (Exception "Data extraction failed: Incorrect password or corrupted encrypted data"), w')
    | (Returned [], w') =>
        (Raised (Exception "Data extraction failed: No valid data could be extracted"), w')
    | (Returned plain, w') => (Returned plain, w')
    end.
Proof.
  intros Hf Hpw binary_data Hfind Hlen Htext.
  unfold extract_data, try_except, extract_data_body. unfold bind at 1.
  rewrite (open_rgb_Some _ _ _ Hf). fold binary_data. rewrite Hfind.
  rewrite decide_False by (intros Hne; by apply Hne).
  rewrite Htext. simpl. rewrite Hpw.
  unfold bind, try_except.
  destruct (_decrypt_data text P w) as [[[|c plain]|e] w']; done.
Qed.


End Cipher.

(** ** The codec *)

Section Codec.
Context `{Platform}.

(** [hide_data]'s body once the image is on disk and the data to hide
    is at hand: the capacity check, then the image saved. *)
Lemma hide_data_body_run w w1 image_path img secret_data password output_path data :
  files w !! image_path = Some img →
  data_to_hide_of secret_data password w = (Returned data, w1) →
  let binary_data := to_binary data ++ delimiter in
  let img_array := np_array (rgb_view img) in
  hide_data_body image_path secret_data password output_path w =
    if decide (length binary_data > size img_array)%nat then
      (Raised (ValueError ("Image too small. Need " +:+ pretty (length binary_data)
                           +:+ " bits, have " +:+ pretty (size img_array))), w1)
    else if decide (length (buffer img_array) = size img_array) then
      (Returned (Some (output_path_of output_path image_path)),
       World (<[output_path_of output_path image_path := stego_image img binary_data]>
                (files w1)) (drawn w1))
    else
      (Raised (ValueError ("cannot reshape array of size "
                           +:+ pretty (length (buffer img_array)))), w1).
Proof.
  intros Hf Hd. simpl.
  unfold hide_data_body. unfold bind at 1. rewrite (open_rgb_Some _ _ _ Hf).
  unfold bind at 1. rewrite Hd.
  destruct (decide (_ > _)%nat) as [Hgt|Hle]; [done|].
  unfold bind at 1. unfold reshape.
  rewrite length_embed_loop. unfold flatten. fold (size (np_array (rgb_view img))).
  destruct (decide (length _ = _)) as [Hwf|Hwf]; [|done].
  reflexivity.
Qed.

Lemma hide_data_body_no_data w w1 image_path img secret_data password output_path e :
  files w !! image_path = Some img →
  data_to_hide_of secret_data password w = (Raised e, w1) →
  hide_data_body image_path secret_data password output_path w = (Raised e, w1).
Proof.
  intros Hf Hd. unfold hide_data_body. unfold bind at 1.
  rewrite (open_rgb_Some _ _ _ Hf). unfold bind at 1. by rewrite Hd.
Qed.


(** [extract_data]'s body once the image is on disk, without a password:
    the text before the marker, unless it is empty. *)
Lemma extract_data_body_plain w image_path img password idx :
  files w !! image_path = Some img →
  truthy_opt password = false →
  let binary_data := extract_lsbs (flatten (np_array (rgb_view img))) in
  find binary_data delimiter = Some idx →
  (length (take idx binary_data) `mod` 8 = 0)%nat →
  extract_data_body image_path password w =
    (match decode_text (take idx binary_data) with
     | [] => Raised (ValueError "No valid data could be extracted")
     | text => Returned text
     end, w).
Proof.
  intros Hf Hpw binary_data Hfind Hlen.
  unfold extract_data_body. unfold bind at 1. rewrite (open_rgb_Some _ _ _ Hf).
  fold binary_data. rewrite Hfind.
  rewrite decide_False by (intros Hne; by apply Hne).
  rewrite Hpw. unfold bind, ret.
  by destruct (decode_text (take idx binary_data)).
Qed.

Lemma extract_data_plain w image_path img password idx :
  files w !! image_path = Some img →
  truthy_opt password = false →
  let binary_data := extract_lsbs (flatten (np_array (rgb_view img))) in
  find binary_data delimiter = Some idx →
  (length (take idx binary_data) `mod` 8 = 0)%nat →
  extract_data image_path password w =
    (match decode_text (take idx binary_data) with
     | [] => Raised (Exception
                       "Data extraction failed: No valid data could be extracted")
     | text => Returned text
     end, w).
Proof.
  intros Hf Hpw binary_data Hfind Hlen.
  unfold extract_data, try_except.
  rewrite (extract_data_body_plain _ _ _ _ _ Hf Hpw Hfind Hlen).
  by destruct (decode_text _).
Qed.

(** Reading back an embedded bit string: the marker is found right
    after ASCII data. *)
Lemma find_in_stego img data :
  Forall (λ c, c <= 127)%N data →
  (length (to_binary data ++ delimiter) ≤ length (buffer (np_array (rgb_view img))))%nat →
  let binary_data :=
    extract_lsbs (flatten (np_array (rgb_view (stego_image img (to_binary data ++ delimiter))))) in
  find binary_data delimiter = Some (length (to_binary data))
  ∧ take (length (to_binary data)) binary_data = to_binary data.
Proof.
  intros Hdata Hfit. unfold stego_image. rewrite rgb_view_RGB. simpl.
  unfold flatten. simpl.
  rewrite extract_lsbs_embed_loop; [|
    apply Forall_app; split; [apply to_binary_bits|apply delimiter_bits] | done].
  rewrite <- app_assoc. split.
  - by apply find_delimiter_ascii.
  - by rewrite take_app_length.
Qed.


Lemma hide_data_run w w1 image_path img secret_data password output_path data :
  files w !! image_path = Some img →
  length (buffer (np_array (rgb_view img))) = size (np_array (rgb_view img)) →
  data_to_hide_of secret_data password w = (Returned data, w1) →
  (length (to_binary data ++ delimiter) ≤ size (np_array (rgb_view img)))%nat →
  hide_data image_path secret_data password output_path w =
    (Returned (Some (output_path_of output_path image_path)),
     World (<[output_path_of output_path image_path
              := stego_image img (to_binary data ++ delimiter)]> (files w1))
       (drawn w1)).
Proof.
  intros Hf Hwf Hd Hfit. unfold hide_data, try_except.
  rewrite (hide_data_body_run _ _ _ _ _ _ _ _ Hf Hd).
  rewrite decide_False by (unfold gt; lia).
  by rewrite decide_True.
Qed.

(** C1, as amended: for every non-empty string [S] of characters with
    codes up to 127 whose bits and the 16-bit marker fit the samples of
    the image, embedding [S] without a password succeeds, and extracting
    without a password from the image it saved returns exactly [S]. *)
Theorem roundtrip_ascii_no_password w image_path img S output_path :
  files w !! image_path = Some img →
  ndarray_wf (np_array (rgb_view img)) →
  S ≠ [] →
  Forall (λ c, c <= 127)%N S →
  (8 * length S + 16 ≤ size (np_array (rgb_view img)))%nat →
  ∃ p w',
    hide_data image_path S [] output_path w = (Returned (Some p), w')
    ∧ extract_data p None w' = (Returned S, w').
Proof.
  intros Hf [Hwf _] Hne HS Hfit.
  assert (Forall (λ c, c < 256)%N S) as HS'.
  { eapply Forall_impl; [exact HS|]. simpl. lia. }
  assert (length (to_binary S ++ delimiter) ≤ size (np_array (rgb_view img)))%nat
    as Hfit'.
  { rewrite length_app, length_to_binary, length_delimiter by done. lia. }
  eexists _, _. split.
  - by apply (hide_data_run w w image_path img S [] output_path S).
  - destruct (find_in_stego img S HS ltac:(by rewrite Hwf)) as [Hfind Htake].
    erewrite extract_data_plain;
      [| simpl; apply lookup_insert_eq | done | exact Hfind |].
    + rewrite Htake, decode_text_to_binary, ascii_prefix_all by done.
      by destruct S.
    + rewrite Htake, length_to_binary by done.
      by rewrite Nat.mul_comm, Nat.Div0.mod_mul.
Qed.


(** C2: the capacity query returns floor((sampleCount - 16) / 8), and
    this is the largest number of bytes whose bits and marker fit the
    samples; the query leaves the files, hence the pixel buffer of the
    image, as they were. *)
Theorem capacity_is_floor w image_path img :
  files w !! image_path = Some img →
  let sample_count := size (np_array (rgb_view img)) in
  ∃ report,
    analyze_image_capacity image_path w = (Returned report, w)
    ∧ total_pixels report = sample_count
    ∧ max_bytes report = (Z.of_nat sample_count - 16) `div` 8
    ∧ 8 * max_bytes report <= Z.of_nat sample_count - 16 < 8 * max_bytes report + 8
    ∧ ∀ data, Forall (λ c, c < 256)%N data →
        (length (to_binary data ++ delimiter) ≤ sample_count)%nat
        ↔ Z.of_nat (length data) <= max_bytes report.
Proof.
  intros Hf sample_count.
  pose proof (Z.div_mod (Z.of_nat sample_count - 16) 8 ltac:(lia)) as Hdiv.
  pose proof (Z.mod_pos_bound (Z.of_nat sample_count - 16) 8 ltac:(lia)) as Hmod.
  eexists. split; [|split; [|split; [|split]]].
  - unfold analyze_image_capacity, try_except. unfold bind at 1.
    rewrite (open_rgb_Some _ _ _ Hf). reflexivity.
  - reflexivity.
  - reflexivity.
  - cbn [max_bytes]. change (Z.of_nat (length delimiter)) with 16.
    fold sample_count. lia.
  - intros data Hdata. cbn [max_bytes].
    change (Z.of_nat (length delimiter)) with 16. fold sample_count.
    rewrite length_app, length_to_binary, length_delimiter by done. lia.
Qed.

(** C3: embedding fails exactly when the bit string (the bits of the data
    to hide and the 16 marker bits) is longer than the sample count. A
    bit string of exactly the sample count is embedded, one bit more is
    refused. The refusal is raised before anything is written: no file
    changes, and [hide_data] reports it by returning [None]. *)
Theorem capacity_check w w1 image_path img secret_data password output_path data :
  files w !! image_path = Some img →
  ndarray_wf (np_array (rgb_view img)) →
  data_to_hide_of secret_data password w = (Returned data, w1) →
  let binary_data := to_binary data ++ delimiter in
  let sample_count := size (np_array (rgb_view img)) in
  ((length binary_data > sample_count)%nat →
     hide_data_body image_path secret_data password output_path w
     = (Raised (ValueError ("Image too small. Need " +:+ pretty (length binary_data)
                            +:+ " bits, have " +:+ pretty sample_count)), w1)
     ∧ hide_data image_path secret_data password output_path w = (Returned None, w1)
     ∧ files w1 = files w)
  ∧ ((length binary_data ≤ sample_count)%nat →
       ∃ p w2, hide_data_body image_path secret_data password output_path w
               = (Returned (Some p), w2)
               ∧ hide_data image_path secret_data password output_path w
                 = (Returned (Some p), w2))
  ∧ (length binary_data = sample_count →
       ∃ p w2, hide_data image_path secret_data password output_path w
               = (Returned (Some p), w2))
  ∧ (length binary_data = S sample_count →
       hide_data image_path secret_data password output_path w = (Returned None, w1)).
Proof.
  intros Hf [Hwf _] Hd binary_data sample_count.
  pose proof (hide_data_body_run _ _ _ _ _ _ output_path _ Hf Hd) as Hrun.
  simpl in Hrun. fold binary_data sample_count in Hrun.
  assert ((length binary_data > sample_count)%nat →
          hide_data_body image_path secret_data password output_path w
          = (Raised (ValueError ("Image too small. Need " +:+ pretty (length binary_data)
                                 +:+ " bits, have " +:+ pretty sample_count)), w1)
          ∧ hide_data image_path secret_data password output_path w = (Returned None, w1)
          ∧ files w1 = files w) as Hfail.
  { intros Hgt. rewrite decide_True in Hrun by done.
    split; [exact Hrun|]. split.
    - unfold hide_data, try_except. by rewrite Hrun.
    - pose proof (data_to_hide_of_files secret_data password w) as Hfiles.
      by rewrite Hd in Hfiles. }
  assert ((length binary_data ≤ sample_count)%nat →
          ∃ p w2, hide_data_body image_path secret_data password output_path w
                  = (Returned (Some p), w2)
                  ∧ hide_data image_path secret_data password output_path w
                    = (Returned (Some p), w2)) as Hok.
  { intros Hle. rewrite decide_False in Hrun by (unfold gt; lia).
    rewrite decide_True in Hrun by done.
    eexists _, _. split; [exact Hrun|].
    unfold hide_data, try_except. by rewrite Hrun. }
  split; [exact Hfail|]. split; [exact Hok|]. split.
  - intros Heq. destruct Hok as (p & w2 & _ & Hh); [lia|]. eauto.
  - intros Heq. apply Hfail. lia.
Qed.

(** C4: when the data fits, the saved image differs from the input image
    only at flattened indices below the length of the bit string: every
    sample at an index from that length on has the value it had. *)
Theorem embedding_frame w w1 image_path img secret_data password output_path data :
  files w !! image_path = Some img →
  ndarray_wf (np_array (rgb_view img)) →
  data_to_hide_of secret_data password w = (Returned data, w1) →
  let binary_data := to_binary data ++ delimiter in
  (length binary_data ≤ size (np_array (rgb_view img)))%nat →
  ∃ p w2 stego,
    hide_data image_path secret_data password output_path w = (Returned (Some p), w2)
    ∧ files w2 !! p = Some stego
    ∧ ∀ i, (length binary_data ≤ i)%nat →
           flatten (np_array stego) !! i = flatten (np_array (rgb_view img)) !! i.
Proof.
  intros Hf [Hwf _] Hd binary_data Hfit.
  eexists _, _, _. split; [|split].
  - by apply (hide_data_run w w1 image_path img secret_data password output_path data).
  - simpl. apply lookup_insert_eq.
  - intros i Hi. simpl. by apply embed_loop_lookup_ge.
Qed.

(** C10: embedding keeps the shape and the sample count of the pixel
    buffer and changes a sample in its least significant bit only: at
    every flattened index the saved sample shifted right by one equals
    the input sample shifted right by one, differs from it by at most 1,
    and is within [0, 255]. *)
Theorem embedding_touches_lsb_only
    w w1 image_path img secret_data password output_path data :
  files w !! image_path = Some img →
  ndarray_wf (np_array (rgb_view img)) →
  data_to_hide_of secret_data password w = (Returned data, w1) →
  (length (to_binary data ++ delimiter) ≤ size (np_array (rgb_view img)))%nat →
  ∃ p w2 stego,
    hide_data image_path secret_data password output_path w = (Returned (Some p), w2)
    ∧ files w2 !! p = Some stego
    ∧ shape (np_array stego) = shape (np_array (rgb_view img))
    ∧ size (np_array stego) = size (np_array (rgb_view img))
    ∧ length (flatten (np_array stego)) = length (flatten (np_array (rgb_view img)))
    ∧ ∀ i v, flatten (np_array (rgb_view img)) !! i = Some v →
        ∃ v', flatten (np_array stego) !! i = Some v'
              ∧ v' ≫ 1 = v ≫ 1 ∧ Z.abs (v' - v) <= 1 ∧ 0 <= v' <= 255.
Proof.
  intros Hf [Hwf Hu8] Hd Hfit.
  eexists _, _, _. split; [|split; [|split; [|split; [|split]]]].
  - by apply (hide_data_run w w1 image_path img secret_data password output_path data).
  - simpl. apply lookup_insert_eq.
  - reflexivity.
  - reflexivity.
  - simpl. apply length_embed_loop.
  - intros i v Hv. simpl.
    assert (uint8 v) as Hv8.
    { eapply Forall_lookup_1; [exact Hu8|exact Hv]. }
    destruct (decide (i < length (to_binary data ++ delimiter))%nat) as [Hlt|Hge].
    + destruct (lookup_lt_is_Some_2 _ _ Hlt) as [bit Hbit].
      exists (set_lsb v bit). split; [by apply embed_loop_lookup_lt|].
      split; [by apply set_lsb_shiftr|]. split; [by apply set_lsb_close|].
      pose proof (set_lsb_uint8 v bit Hv8) as [??]. lia.
    + exists v. split.
      * rewrite embed_loop_lookup_ge by lia. exact Hv.
      * destruct Hv8. split; [done|]. split; lia.
Qed.


(** C5, as amended: when a byte reconstructed before the marker is above
    127, extraction without a password stops decoding at the first such
    byte and keeps the characters decoded before it: it returns them, or
    raises "No valid data could be extracted" when there are none. *)
Theorem invalid_byte_ends_text w image_path img idx pre c post :
  files w !! image_path = Some img →
  let binary_data := extract_lsbs (flatten (np_array (rgb_view img))) in
  find binary_data delimiter = Some idx →
  (length (take idx binary_data) `mod` 8 = 0)%nat →
  reconstructed (take idx binary_data) = pre ++ c :: post →
  Forall (λ x, x <= 127)%N pre →
  (127 < c)%N →
  extract_data image_path None w =
    (match pre with
     | [] => Raised (Exception
                       "Data extraction failed: No valid data could be extracted")
     | _ :: _ => Returned pre
     end, w).
Proof.
  intros Hf binary_data Hfind Hlen Hrec Hpre Hc.
  rewrite (extract_data_plain _ _ _ None _ Hf eq_refl Hfind Hlen).
  fold binary_data.
  rewrite decode_text_spec, Hrec, ascii_prefix_stop by done.
  by destruct pre.
Qed.

Lemma extract_data_nonempty image_path password w w' :
  extract_data image_path password w ≠ (Returned [], w').
Proof.
  unfold extract_data, try_except.
  destruct (extract_data_body image_path password w) as [[text|e] w1] eqn:Hbody;
    [|done].
  intros Heq. simplify_eq.
  revert Hbody. unfold extract_data_body. unfold bind at 1.
  destruct (open_rgb image_path w) as [[img|e] w2]; [|done].
  destruct (find _ _) as [idx|]; [|done].
  destruct (decide _); [done|].
  unfold bind at 1.
  match goal with |- context [(if truthy_opt password then ?c else ?d) w2] =>
    destruct ((if truthy_opt password then c else d) w2) as [[text|e] w3] end;
    [|done].
  by destruct text.
Qed.

(** C9: extraction refuses an empty text. When the text recovered before
    the marker is empty, extraction without a password raises "No valid
    data could be extracted"; this is what happens after the empty string
    was embedded, so the round trip without a password does not hold for
    the empty payload. With a password the empty text is no envelope and
    the decryption step raises. No call of [extract_data] returns the
    empty string. *)
Theorem empty_text_is_refused w image_path img password idx :
  files w !! image_path = Some img →
  truthy_opt password = false →
  let binary_data := extract_lsbs (flatten (np_array (rgb_view img))) in
  find binary_data delimiter = Some idx →
  (length (take idx binary_data) `mod` 8 = 0)%nat →
  decode_text (take idx binary_data) = [] →
  extract_data image_path password w =
    (Raised (Exception "Data extraction failed: No valid data could be extracted"), w)
  ∧ (∀ output_path,
       ndarray_wf (np_array (rgb_view img)) →
       (16 ≤ size (np_array (rgb_view img)))%nat →
       ∃ p w',
         hide_data image_path [] [] output_path w = (Returned (Some p), w')
         ∧ extract_data p None w' =
           (Raised (Exception
                      "Data extraction failed: No valid data could be extracted"), w'))
  ∧ (∀ pw,
       truthy pw = true →
       utf8_encode [] = Returned [] →
       b64decode [] = Returned [] →
       extract_data image_path (Some pw) w =
         (Raised (Exception "Data extraction failed: Incorrect password or corrupted encrypted data"), w))
  ∧ (∀ path pw w0 w', extract_data path pw w0 ≠ (Returned [], w')).
Proof.
  intros Hf Hpw binary_data Hfind Hlen Hempty. split; [|split; [|split]].
  - rewrite (extract_data_plain _ _ _ _ _ Hf Hpw Hfind Hlen).
    fold binary_data. by rewrite Hempty.
  - intros output_path [Hwf _] Hfit.
    eexists _, _. split.
    + by apply (hide_data_run w w image_path img [] [] output_path []).
    + destruct (find_in_stego img [] ltac:(constructor)
                  ltac:(rewrite Hwf; exact Hfit)) as [Hfind' Htake].
      match goal with |- extract_data ?p None ?w' = _ =>
        pose proof (extract_data_plain w' p _ None _
                      (lookup_insert_eq _ _ _) eq_refl Hfind') as Hx end.
      cbv zeta in Hx. rewrite Htake in Hx. by apply Hx.
  - intros pw Htruthy Henc Hdec.
    destruct (_decrypt_data_empty pw w Henc Hdec) as [msg Hmsg].
    unfold extract_data, try_except, extract_data_body. unfold bind at 1.
    rewrite (open_rgb_Some _ _ _ Hf). fold binary_data. rewrite Hfind.
    rewrite decide_False by (intros Hne; by apply Hne).
    rewrite Hempty. change (truthy_opt (Some pw)) with (truthy pw).
    rewrite Htruthy. change (default [] (Some pw)) with pw.
    unfold bind, try_except. by rewrite Hmsg.
  - intros. apply extract_data_nonempty.
Qed.

Lemma hide_data_body_Raised_files image_path secret_data password output_path w e w' :
  hide_data_body image_path secret_data password output_path w = (Raised e, w') →
  files w' = files w.
Proof.
  destruct (files w !! image_path) as [img|] eqn:Hf.
  - pose proof (data_to_hide_of_files secret_data password w) as Hfiles.
    destruct (data_to_hide_of secret_data password w) as [[data|e1] w1] eqn:Hd.
    + rewrite (hide_data_body_run _ _ _ _ _ _ _ _ Hf Hd).
      repeat case_decide; intros; simplify_eq; done.
    + rewrite (hide_data_body_no_data _ _ _ _ _ _ _ _ Hf Hd).
      intros; by simplify_eq.
  - unfold hide_data_body. unfold bind at 1.
    rewrite (open_rgb_None _ _ Hf). intros; by simplify_eq.
Qed.

End Codec.

(** ** Beyond the claims *)

Section Beyond.
Context `{Platform}.

(** What extraction reads from a saved image: the bits embedded, then
    the bits of the carrier. *)
Lemma stego_bits img bits :
  Forall is_bit bits →
  (length bits ≤ length (buffer (np_array (rgb_view img))))%nat →
  extract_lsbs (flatten (np_array (rgb_view (stego_image img bits))))
  = bits ++ extract_lsbs (drop (length bits) (flatten (np_array (rgb_view img)))).
Proof.
  intros Hbits Hfit. unfold stego_image. rewrite rgb_view_RGB.
  cbn [np_array pixels flatten buffer].
  by apply extract_lsbs_embed_loop.
Qed.

Lemma stego_image_wf img bits :
  ndarray_wf (np_array (rgb_view img)) →
  ndarray_wf (np_array (rgb_view (stego_image img bits))).
Proof.
  intros [Hlen Hu8]. unfold stego_image. rewrite rgb_view_RGB.
  split; cbn [np_array pixels buffer].
  - rewrite length_embed_loop. exact Hlen.
  - rewrite embed_loop_spec. apply Forall_app. split.
    + apply Forall_forall. intros v Hv.
      apply list_elem_of_lookup in Hv as [i Hi].
      apply lookup_zip_with_Some in Hi as (v0 & bit & -> & Hv0 & _).
      apply set_lsb_uint8. eapply Forall_lookup_1; [exact Hu8|exact Hv0].
    + by apply Forall_drop.
Qed.

Lemma find_Some_bound s idx :
  find s delimiter = Some idx → (idx + 16 ≤ length s)%nat.
Proof.
  intros Hf. apply find_from_Some in Hf as (k & -> & Hpre & _).
  apply prefix_length in Hpre. rewrite length_drop, length_delimiter in Hpre.
  lia.
Qed.

Lemma find_Some_take s idx :
  find s delimiter = Some idx → length (take idx s) = idx.
Proof.
  intros Hf. apply find_Some_bound in Hf. rewrite length_take. lia.
Qed.


(** [extract_data]'s body up to the decoded text, for either password
    case. *)
Lemma extract_data_body_found w image_path img password idx :
  files w !! image_path = Some img →
  let binary_data := extract_lsbs (flatten (np_array (rgb_view img))) in
  find binary_data delimiter = Some idx →
  (length (take idx binary_data) `mod` 8 = 0)%nat →
  extract_data_body image_path password w =
    (let! extracted_text :=
       (if truthy_opt password then
          try_except
            (_decrypt_data (decode_text (take idx binary_data)) (default [] password))
            (λ _, raise (ValueError "Incorrect password or corrupted encrypted data"))
        else ret (decode_text (take idx binary_data))) in
     if negb (truthy extracted_text) then
       raise (ValueError "No valid data could be extracted")
     else ret extracted_text) w.
Proof.
  intros Hf binary_data Hfind Hlen.
  unfold extract_data_body. unfold bind at 1. rewrite (open_rgb_Some _ _ _ Hf).
  fold binary_data. rewrite Hfind.
  by rewrite decide_False by (intros Hne; by apply Hne).
Qed.

Lemma _decrypt_data_of_encrypted S P w env w1 w2 :
  (∀ b, b64decode (b64encode b) = Returned b) →
  (∀ b, utf8_decode b = Returned env → utf8_encode env = Returned b) →
  (∀ b, utf8_encode S = Returned b → utf8_decode b = Returned S) →
  (∀ key nonce plaintext,
     gcm_decrypt key nonce (gcm_encrypt key nonce plaintext) = plaintext) →
  (∀ key nonce ciphertext, length (gcm_digest key nonce ciphertext) = 16%nat) →
  _encrypt_data S P w = (Returned env, w1) →
  _decrypt_data env P w2 = (Returned S, World (files w2) (drawn w2 + 16)).
Proof.
  intros Hb64 Henv_inv HS_inv Hgcm Htaglen Henc.
  destruct (_decrypt_data_envelope S P P w env w1 w2 Hb64 Henv_inv Htaglen Henc)
    as (key & plaintext & Hkey & Hpt & Hrun).
  cbv zeta in Hrun. rewrite Hrun, Hkey.
  rewrite decide_True by done. by rewrite Hgcm, (HS_inv _ Hpt).
Qed.


(** Hiding data whose bit string starts with ASCII text followed by the
    marker pattern, then reading the saved image: the marker is found
    where that text ends, and the text is what the decoding gives. *)
Lemma hide_then_read w w1 image_path img secret_data password output_path data
    pre tail :
  files w !! image_path = Some img →
  ndarray_wf (np_array (rgb_view img)) →
  data_to_hide_of secret_data password w = (Returned data, w1) →
  to_binary data = to_binary pre ++ tail →
  Forall (λ c, c <= 127)%N pre →
  delimiter `prefix_of` tail ++ delimiter →
  (length (to_binary data ++ delimiter) ≤ size (np_array (rgb_view img)))%nat →
  let p := output_path_of output_path image_path in
  let stego := stego_image img (to_binary data ++ delimiter) in
  let w2 := World (<[p := stego]> (files w1)) (drawn w1) in
  let binary_data := extract_lsbs (flatten (np_array (rgb_view stego))) in
  hide_data image_path secret_data password output_path w = (Returned (Some p), w2)
  ∧ files w2 !! p = Some stego
  ∧ find binary_data delimiter = Some (length (to_binary pre))
  ∧ (length (take (length (to_binary pre)) binary_data) `mod` 8 = 0)%nat
  ∧ decode_text (take (length (to_binary pre)) binary_data) = pre.
Proof.
  intros Hf [Hwf Hu8] Hd Hbin Hpre [rest Hrest] Hfit p stego w2 binary_data.
  assert (Forall (λ c, c < 256)%N pre) as Hpre'.
  { eapply Forall_impl; [exact Hpre|]. simpl. lia. }
  assert (binary_data = to_binary pre ++ delimiter ++ rest
            ++ extract_lsbs (drop (length (to_binary data ++ delimiter))
                               (flatten (np_array (rgb_view img))))) as Hbits.
  { unfold binary_data, stego. rewrite stego_bits.
    - rewrite Hbin, <- !app_assoc. f_equal. rewrite app_assoc, Hrest.
      by rewrite <- app_assoc.
    - apply Forall_app. split; [apply to_binary_bits|apply delimiter_bits].
    - by rewrite Hwf. }
  assert (take (length (to_binary pre)) binary_data = to_binary pre) as Htake.
  { by rewrite Hbits, take_app_length. }
  split; [|split; [|split; [|split]]].
  - by apply (hide_data_run w w1 image_path img secret_data password output_path data).
  - apply lookup_insert_eq.
  - rewrite Hbits. by apply find_delimiter_ascii.
  - rewrite Htake, length_to_binary by done.
    by rewrite Nat.mul_comm, Nat.Div0.mod_mul.
  - rewrite Htake, decode_text_to_binary by done. by apply ascii_prefix_all.
Qed.


(** X1: round trip with a password. When [S] is not empty, its envelope
    under a non-empty password [P] is ASCII text and fits the image, then
    [hide_data] with [P] saves an image from which [extract_data] with
    [P] returns exactly [S], having drawn the 16 bytes of the tag
    verification. The codecs are taken to invert each other, the cipher
    to decrypt what it encrypted, and its tag to be 16 bytes long. *)
Theorem roundtrip_with_password w image_path img S P output_path env w1 :
  (∀ b, b64decode (b64encode b) = Returned b) →
  (∀ b, utf8_decode b = Returned env → utf8_encode env = Returned b) →
  (∀ b, utf8_encode S = Returned b → utf8_decode b = Returned S) →
  (∀ key nonce plaintext,
     gcm_decrypt key nonce (gcm_encrypt key nonce plaintext) = plaintext) →
  (∀ key nonce ciphertext, length (gcm_digest key nonce ciphertext) = 16%nat) →
  files w !! image_path = Some img →
  ndarray_wf (np_array (rgb_view img)) →
  truthy P = true →
  S ≠ [] →
  _encrypt_data S P w = (Returned env, w1) →
  Forall (λ c, c <= 127)%N env →
  (8 * length env + 16 ≤ size (np_array (rgb_view img)))%nat →
  ∃ p w2,
    hide_data image_path S P output_path w = (Returned (Some p), w2)
    ∧ extract_data p (Some P) w2
      = (Returned S, World (files w2) (drawn w2 + 16)).
Proof.
  intros Hb64 Henv_inv HS_inv Hgcm Htaglen Hf Hwf HP HS Henc Hascii Hfit.
  assert (data_to_hide_of S P w = (Returned env, w1)) as Hd.
  { unfold data_to_hide_of. by rewrite HP. }
  assert (Forall (λ c, c < 256)%N env) as Hascii'.
  { eapply Forall_impl; [exact Hascii|]. simpl. lia. }
  destruct (hide_then_read w w1 image_path img S P output_path env env []
              Hf Hwf Hd ltac:(by rewrite app_nil_r) Hascii ltac:(done))
    as (Hhide & Hout & Hfind & Hlen & Htext).
  { rewrite length_app, length_to_binary, length_delimiter by done. lia. }
  eexists _, _. split; [exact Hhide|].
  unfold extract_data, try_except.
  rewrite (extract_data_body_found _ _ _ _ _ Hout Hfind Hlen).
  rewrite Htext. change (truthy_opt (Some P)) with (truthy P). rewrite HP.
  change (default [] (Some P)) with P.
  unfold bind, try_except.
  rewrite (_decrypt_data_of_encrypted S P w env w1 _ Hb64 Henv_inv HS_inv Hgcm Htaglen Henc).
  by destruct S.
Qed.


(** X2: [_decrypt_data] under the password that [_encrypt_data] was
    given returns the text that was encrypted, whatever the entropy
    drawn for salt and nonce, and draws the 16 bytes of the tag
    verification, under the same assumptions on the codecs and the
    cipher. *)
Theorem decrypt_inverts_encrypt S P w env w1 w2 :
  (∀ b, b64decode (b64encode b) = Returned b) →
  (∀ b, utf8_decode b = Returned env → utf8_encode env = Returned b) →
  (∀ b, utf8_encode S = Returned b → utf8_decode b = Returned S) →
  (∀ key nonce plaintext,
     gcm_decrypt key nonce (gcm_encrypt key nonce plaintext) = plaintext) →
  (∀ key nonce ciphertext, length (gcm_digest key nonce ciphertext) = 16%nat) →
  _encrypt_data S P w = (Returned env, w1) →
  _decrypt_data env P w2 = (Returned S, World (files w2) (drawn w2 + 16)).
Proof. apply _decrypt_data_of_encrypted. Qed.

Lemma extract_data_body_no_marker w image_path img password :
  files w !! image_path = Some img →
  find (extract_lsbs (flatten (np_array (rgb_view img)))) delimiter = None →
  extract_data_body image_path password w
  = (Raised (ValueError "No hidden data found or data corrupted"), w).
Proof.
  intros Hf Hfind. unfold extract_data_body. unfold bind at 1.
  rewrite (open_rgb_Some _ _ _ Hf). by rewrite Hfind.
Qed.

(** Every way through [extract_data]: what ends the call, and with
    which message; a byte above 127 only ends the text. *)
Lemma extract_data_run image_path password w :
  extract_data image_path password w =
    match files w !! image_path with
    | None =>
        (Raised (Exception ("Data extraction failed: "
                            +:+ exn_msg (Image_open_error image_path))), w)
    | Some img =>
        let binary_data := extract_lsbs (flatten (np_array (rgb_view img))) in
        match find binary_data delimiter with
        | None =>
            (Raised (Exception
                       "Data extraction failed: No hidden data found or data corrupted"),
             w)
        | Some idx =>
            if decide (idx `mod` 8 ≠ 0)%nat then
              (Raised (Exception
                         "Data extraction failed: Invalid data length - not divisible by 8"),
               w)
            else
              let recovered := ascii_prefix (reconstructed (take idx binary_data)) in
              if truthy_opt password then
                match _decrypt_data recovered (default [] password) w with
                | (Raised _, w') =>
                    (Raised (Exception "Data extraction failed: Incorrect password or corrupted encrypted data"),
                     w')
                | (Returned [], w') =>
                    (Raised (Exception
                               "Data extraction failed: No valid data could be extracted"),
                     w')
                | (Returned text, w') => (Returned text, w')
                end
              else
                match recovered with
                | [] =>
                    (Raised (Exception
                               "Data extraction failed: No valid data could be extracted"),
                     w)
                | text => (Returned text, w)
                end
        end
    end.
Proof.
  destruct (files w !! image_path) as [img|] eqn:Hf.
  - cbv zeta.
    set (binary_data := extract_lsbs (flatten (np_array (rgb_view img)))).
    destruct (find binary_data delimiter) as [idx|] eqn:Hfind.
    + pose proof (find_Some_take _ _ Hfind) as Htake.
      destruct (decide (idx `mod` 8 ≠ 0)%nat) as [Hmis|Hal].
      * unfold extract_data, try_except, extract_data_body. unfold bind at 1.
        rewrite (open_rgb_Some _ _ _ Hf). fold binary_data. rewrite Hfind.
        rewrite Htake. by rewrite decide_True.
      * assert (length (take idx binary_data) `mod` 8 = 0)%nat as Hlen.
        { rewrite Htake. destruct (decide (idx `mod` 8 = 0)%nat); [done|].
          exfalso. by apply Hal. }
        rewrite <- decode_text_spec by exact Hlen.
        destruct (truthy_opt password) eqn:Hpw.
        -- destruct password as [P|]; [|done].
           exact (extract_data_with_password w image_path img P idx _ Hf Hpw Hfind Hlen eq_refl).
        -- rewrite (extract_data_plain _ _ _ _ _ Hf Hpw Hfind Hlen).
           subst binary_data. by destruct (decode_text _).
    + unfold extract_data, try_except.
      by rewrite (extract_data_body_no_marker _ _ _ _ Hf Hfind).
  - unfold extract_data, try_except, extract_data_body. unfold bind at 1.
    by rewrite (open_rgb_None _ _ Hf).
Qed.

(** X10: reading writes no file. [extract_data] and
    [analyze_image_capacity] leave every file as it was.
    [analyze_image_capacity], and [extract_data] without a password, draw
    no entropy either. With a password [extract_data] draws nothing or
    the 16 bytes of the tag verification, which [_decrypt_data] draws as
    soon as the envelope decodes to more than 16 bytes and the key is
    derived, before it is known whether the tag is right. *)
Theorem reading_writes_no_file image_path password w :
  let w' := snd (extract_data image_path password w) in
  files w' = files w
  ∧ (drawn w' = drawn w ∨ drawn w' = (drawn w + 16)%nat)
  ∧ (truthy_opt password = false → w' = w)
  ∧ snd (analyze_image_capacity image_path w) = w
  ∧ (∀ encrypted_data pw encoded encrypted_bytes key,
       utf8_encode encrypted_data = Returned encoded →
       b64decode encoded = Returned encrypted_bytes →
       PBKDF2 pw (slice 0 16 encrypted_bytes) 32 100000%N = Returned key →
       (16 < length encrypted_bytes)%nat →
       snd (_decrypt_data encrypted_data pw w) = World (files w) (drawn w + 16)).
Proof.
  cbv zeta.
  assert (files (snd (extract_data image_path password w)) = files w
          ∧ (drawn (snd (extract_data image_path password w)) = drawn w
             ∨ drawn (snd (extract_data image_path password w)) = (drawn w + 16)%nat)
          ∧ (truthy_opt password = false
             → snd (extract_data image_path password w) = w)) as (H1 & H2 & H3).
  { rewrite extract_data_run.
    destruct (files w !! image_path) as [img|]; [|by auto]. cbv zeta.
    destruct (find _ _) as [idx|]; [|by auto].
    destruct (decide _); [by auto|].
    destruct (truthy_opt password).
    - match goal with |- context [_decrypt_data ?t ?p w] =>
        pose proof (_decrypt_data_files t p w) as Hfiles;
        pose proof (_decrypt_data_drawn t p w) as Hdrawn;
        destruct (_decrypt_data t p w) as [[[|c text]|e] w'] end;
        cbn [snd] in *; (split; [done|split; [done|discriminate]]).
    - destruct (ascii_prefix _); by auto. }
  split; [done|]. split; [done|]. split; [done|]. split.
  - unfold analyze_image_capacity, try_except. unfold bind at 1.
    destruct (files w !! image_path) as [img|] eqn:Hf.
    + by rewrite (open_rgb_Some _ _ _ Hf).
    + by rewrite (open_rgb_None _ _ Hf).
  - intros encrypted_data pw encoded encrypted_bytes key Henc Hdec Hkey Hlong.
    rewrite _decrypt_data_run, Henc, Hdec. cbv zeta. rewrite Hkey.
    rewrite decide_False.
    + by repeat case_match.
    + intros Hnil. apply (f_equal length) in Hnil. unfold slice in Hnil.
      rewrite length_take, length_drop in Hnil. cbn [length] in Hnil. lia.
Qed.


Lemma ascii_prefix_ascii codes : Forall (λ c, c <= 127)%N (ascii_prefix codes).
Proof.
  induction codes as [|c codes IH]; simpl; [constructor|].
  destruct (decide (c <= 127)%N); [by constructor|constructor].
Qed.

(** What [extract_data] answers when no password is given. *)
Lemma extract_data_plain_table w image_path img password :
  files w !! image_path = Some img →
  truthy_opt password = false →
  let binary_data := extract_lsbs (flatten (np_array (rgb_view img))) in
  extract_data image_path password w =
    (match find binary_data delimiter with
     | None =>
         Raised (Exception
                   "Data extraction failed: No hidden data found or data corrupted")
     | Some idx =>
         if decide (idx `mod` 8 ≠ 0)%nat then
           Raised (Exception
                     "Data extraction failed: Invalid data length - not divisible by 8")
         else
           match ascii_prefix (reconstructed (take idx binary_data)) with
           | [] => Raised (Exception
                             "Data extraction failed: No valid data could be extracted")
           | text => Returned text
           end
     end, w).
Proof.
  intros Hf Hpw binary_data.
  destruct (find binary_data delimiter) as [idx|] eqn:Hfind.
  - pose proof (find_Some_take _ _ Hfind) as Htake.
    destruct (decide (idx `mod` 8 ≠ 0)%nat) as [Hmis|Hal].
    + unfold extract_data, try_except, extract_data_body. unfold bind at 1.
      rewrite (open_rgb_Some _ _ _ Hf). fold binary_data. rewrite Hfind.
      rewrite Htake. by rewrite decide_True.
    + assert (length (take idx binary_data) `mod` 8 = 0)%nat as Hlen.
      { rewrite Htake. destruct (decide (idx `mod` 8 = 0)%nat); [done|].
        exfalso. by apply Hal. }
      rewrite (extract_data_plain _ _ _ _ _ Hf Hpw Hfind Hlen).
      fold binary_data. by rewrite decode_text_spec.
  - unfold extract_data, try_except.
    by rewrite (extract_data_body_no_marker _ _ _ _ Hf Hfind).
Qed.

(** X4: what [extract_data] answers without a password, for every image
    on disk: "No hidden data found or data corrupted" when the marker is
    not found; "Invalid data length - not divisible by 8" when it is
    found at a position that is not a multiple of 8; otherwise the bytes
    before the marker up to the first one above 127, or "No valid data
    could be extracted" when there are none. *)
Theorem extraction_outcomes w image_path img password :
  files w !! image_path = Some img →
  truthy_opt password = false →
  let binary_data := extract_lsbs (flatten (np_array (rgb_view img))) in
  extract_data image_path password w =
    (match find binary_data delimiter with
     | None =>
         Raised (Exception
                   "Data extraction failed: No hidden data found or data corrupted")
     | Some idx =>
         if decide (idx `mod` 8 ≠ 0)%nat then
           Raised (Exception
                     "Data extraction failed: Invalid data length - not divisible by 8")
         else
           match ascii_prefix (reconstructed (take idx binary_data)) with
           | [] => Raised (Exception
                             "Data extraction failed: No valid data could be extracted")
           | text => Returned text
           end
     end, w).
Proof. apply extract_data_plain_table. Qed.

(** X6: a text [extract_data] returns without a password is never empty
    and holds only characters with codes up to 127. *)
Theorem extracted_text_is_ascii w image_path password text w' :
  truthy_opt password = false →
  extract_data image_path password w = (Returned text, w') →
  text ≠ [] ∧ Forall (λ c, c <= 127)%N text.
Proof.
  intros Hpw Hret.
  destruct (files w !! image_path) as [img|] eqn:Hf.
  - rewrite (extract_data_plain_table _ _ _ _ Hf Hpw) in Hret.
    cbv zeta in Hret.
    destruct (find _ _) as [idx|]; [|done].
    destruct (decide _); [done|].
    pose proof (ascii_prefix_ascii
                  (reconstructed
                     (take idx (extract_lsbs (flatten (np_array (rgb_view img)))))))
      as Hascii.
    destruct (ascii_prefix _) as [|c t]; [done|].
    simplify_eq. done.
  - unfold extract_data, try_except, extract_data_body in Hret.
    unfold bind at 1 in Hret.
    rewrite (open_rgb_None _ _ Hf) in Hret. done.
Qed.


Lemma length_extract_lsbs flat : length (extract_lsbs flat) = length flat.
Proof. by rewrite extract_lsbs_spec, length_fmap. Qed.

Lemma find_from_None_inv sub s i :
  find_from sub s i = None → ∀ j, ¬ sub `prefix_of` drop j s.
Proof.
  revert i. induction s as [|c s IH]; intros i Hnone j; simpl in Hnone.
  - case_bool_decide; [done|]. by rewrite drop_nil.
  - case_bool_decide; [done|]. destruct j as [|j]; [done|].
    simpl. by eapply IH.
Qed.

Lemma find_None_iff s :
  find s delimiter = None ↔ ∀ j, ¬ delimiter `prefix_of` drop j s.
Proof.
  split; [apply find_from_None_inv|apply find_from_None].
Qed.

(** X5: [extract_data] raises "No hidden data found or data corrupted"
    exactly when the marker occurs at no position of the string of least
    significant bits, with or without a password; in particular for
    every image of fewer than 16 samples. *)
Theorem no_marker_no_data w image_path img password :
  files w !! image_path = Some img →
  let binary_data := extract_lsbs (flatten (np_array (rgb_view img))) in
  (extract_data image_path password w
   = (Raised (Exception
                "Data extraction failed: No hidden data found or data corrupted"), w)
   ↔ ∀ j, ¬ delimiter `prefix_of` drop j binary_data)
  ∧ ((length (flatten (np_array (rgb_view img))) < 16)%nat →
     extract_data image_path password w
     = (Raised (Exception
                  "Data extraction failed: No hidden data found or data corrupted"), w)).
Proof.
  intros Hf binary_data.
  assert ((∀ j, ¬ delimiter `prefix_of` drop j binary_data) →
          extract_data image_path password w
          = (Raised (Exception
                       "Data extraction failed: No hidden data found or data corrupted"), w))
    as Hnone.
  { intros Hno. apply find_None_iff in Hno.
    unfold extract_data, try_except.
    by rewrite (extract_data_body_no_marker _ _ _ _ Hf Hno). }
  split; [split; [|exact Hnone]|].
  - intros Hraised. apply find_None_iff.
    destruct (find binary_data delimiter) as [idx|] eqn:Hfind; [exfalso|done].
    revert Hraised. unfold extract_data, try_except, extract_data_body.
    unfold bind at 1. rewrite (open_rgb_Some _ _ _ Hf). fold binary_data.
    rewrite Hfind. destruct (decide _); [done|].
    unfold bind at 1.
    destruct (truthy_opt password).
    + unfold try_except.
      destruct (_decrypt_data _ _ w) as [[text|e] w1]; [|done].
      by destruct (negb (truthy text)).
    + unfold ret at 1. by destruct (negb (truthy _)).
  - intros Hshort. apply Hnone. intros j Hpre.
    apply prefix_length in Hpre.
    rewrite length_drop, length_delimiter in Hpre.
    unfold binary_data in Hpre. rewrite length_extract_lsbs in Hpre. lia.
Qed.

(** X9: [hide_data] writes at most one file: every path other than the
    output path holds after the call what it held before, success or
    failure; without a password no entropy is drawn. *)
Theorem hide_data_writes_one_file image_path secret_data password output_path w q :
  (q ≠ output_path_of output_path image_path →
   files (snd (hide_data image_path secret_data password output_path w)) !! q
   = files w !! q)
  ∧ (truthy password = false →
     drawn (snd (hide_data image_path secret_data password output_path w)) = drawn w).
Proof.
  unfold hide_data, try_except.
  destruct (files w !! image_path) as [img|] eqn:Hf.
  - pose proof (data_to_hide_of_files secret_data password w) as Hfiles.
    assert (truthy password = false → data_to_hide_of secret_data password w
                                      = (Returned secret_data, w)) as Hplain.
    { intros Hpw. unfold data_to_hide_of. by rewrite Hpw. }
    destruct (data_to_hide_of secret_data password w) as [[data|e] w1] eqn:Hd.
    + rewrite (hide_data_body_run _ _ _ _ _ _ output_path _ Hf Hd).
      simpl in Hfiles.
      split.
      * intros Hq. repeat case_decide; simpl; rewrite ?Hfiles; try done.
        by rewrite lookup_insert_ne.
      * intros Hpw. specialize (Hplain Hpw). simplify_eq.
        by repeat case_decide.
    + rewrite (hide_data_body_no_data _ _ _ _ _ _ output_path _ Hf Hd).
      simpl in *. split; [by rewrite Hfiles|].
      intros Hpw. specialize (Hplain Hpw). by simplify_eq.
  - assert (∃ e, hide_data_body image_path secret_data password output_path w
                 = (Raised e, w)) as [e ->].
    { unfold hide_data_body. unfold bind at 1.
      rewrite (open_rgb_None _ _ Hf). eauto. }
    by split.
Qed.

(** X11: for a path at which [Image.open] raises, because nothing is
    there or because what is there is no image, [hide_data] returns
    [None], [extract_data] raises "Data extraction failed: ..." and
    [analyze_image_capacity] raises "Image analysis failed: ...", each
    followed by the message of that exception; nothing is changed and no
    entropy is drawn, whatever the other arguments are. *)
Theorem image_open_failure w image_path secret_data password output_path pw :
  files w !! image_path = None →
  hide_data image_path secret_data password output_path w = (Returned None, w)
  ∧ extract_data image_path pw w
    = (Raised (Exception ("Data extraction failed: "
                          +:+ exn_msg (Image_open_error image_path))), w)
  ∧ analyze_image_capacity image_path w
    = (Raised (Exception ("Image analysis failed: "
                          +:+ exn_msg (Image_open_error image_path))), w).
Proof.
  intros Hf. pose proof (open_rgb_None _ _ Hf) as Hopen.
  split; [|split].
  - unfold hide_data, try_except, hide_data_body. unfold bind at 1. by rewrite Hopen.
  - unfold extract_data, try_except, extract_data_body. unfold bind at 1.
    by rewrite Hopen.
  - unfold analyze_image_capacity, try_except. unfold bind at 1. by rewrite Hopen.
Qed.



(** X8: embedding into an image that already carries a payload replaces
    it: after [S1] and then [S2] are hidden, extraction returns [S2],
    whatever [S1] was. *)
Theorem second_embedding_wins w image_path img S1 S2 out1 out2 :
  files w !! image_path = Some img →
  ndarray_wf (np_array (rgb_view img)) →
  (length (to_binary S1 ++ delimiter) ≤ size (np_array (rgb_view img)))%nat →
  S2 ≠ [] →
  Forall (λ c, c <= 127)%N S2 →
  (8 * length S2 + 16 ≤ size (np_array (rgb_view img)))%nat →
  ∃ p1 w1 p2 w2,
    hide_data image_path S1 [] out1 w = (Returned (Some p1), w1)
    ∧ hide_data p1 S2 [] out2 w1 = (Returned (Some p2), w2)
    ∧ extract_data p2 None w2 = (Returned S2, w2).
Proof.
  intros Hf Hwf Hfit1 HS2 Hascii Hfit2.
  assert (Forall (λ c, c < 256)%N S2) as Hascii'.
  { eapply Forall_impl; [exact Hascii|]. simpl. lia. }
  pose proof (hide_data_run w w image_path img S1 [] out1 S1 Hf (proj1 Hwf)
                eq_refl Hfit1) as Hhide1.
  set (stego1 := stego_image img (to_binary S1 ++ delimiter)) in *.
  set (p1 := output_path_of out1 image_path) in *.
  set (w1 := World (<[p1 := stego1]> (files w)) (drawn w)) in *.
  assert (files w1 !! p1 = Some stego1) as Hf1 by apply lookup_insert_eq.
  pose proof (stego_image_wf img (to_binary S1 ++ delimiter) Hwf) as Hwf1.
  fold stego1 in Hwf1.
  destruct (hide_then_read w1 w1 p1 stego1 S2 [] out2 S2 S2 [] Hf1 Hwf1 eq_refl
              ltac:(by rewrite app_nil_r) Hascii ltac:(done))
    as (Hhide2 & Hout & Hfind & Hlen & Htext).
  { rewrite length_app, length_to_binary, length_delimiter by done.
    unfold stego1, stego_image. rewrite rgb_view_RGB. unfold size. simpl.
    fold (size (np_array (rgb_view img))). lia. }
  eexists _, _, _, _. split; [exact Hhide1|]. split; [exact Hhide2|].
  rewrite (extract_data_plain _ _ _ None _ Hout eq_refl Hfind Hlen).
  rewrite Htext. by destruct S2.
Qed.

(** X3: an image that was written with a password and is read without
    one gives no error: [extract_data] returns the envelope text. *)
Theorem protected_image_read_without_password
    w image_path img S P output_path env w1 :
  files w !! image_path = Some img →
  ndarray_wf (np_array (rgb_view img)) →
  truthy P = true →
  _encrypt_data S P w = (Returned env, w1) →
  env ≠ [] →
  Forall (λ c, c <= 127)%N env →
  (8 * length env + 16 ≤ size (np_array (rgb_view img)))%nat →
  ∃ p w2,
    hide_data image_path S P output_path w = (Returned (Some p), w2)
    ∧ extract_data p None w2 = (Returned env, w2).
Proof.
  intros Hf Hwf HP Henc Hne Hascii Hfit.
  assert (data_to_hide_of S P w = (Returned env, w1)) as Hd.
  { unfold data_to_hide_of. by rewrite HP. }
  assert (Forall (λ c, c < 256)%N env) as Hascii'.
  { eapply Forall_impl; [exact Hascii|]. simpl. lia. }
  destruct (hide_then_read w w1 image_path img S P output_path env env []
              Hf Hwf Hd ltac:(by rewrite app_nil_r) Hascii ltac:(done))
    as (Hhide & Hout & Hfind & Hlen & Htext).
  { rewrite length_app, length_to_binary, length_delimiter by done. lia. }
  eexists _, _. split; [exact Hhide|].
  rewrite (extract_data_plain _ _ _ None _ Hout eq_refl Hfind Hlen).
  rewrite Htext. by destruct env.
Qed.

Lemma size_nat_lower (k : nat) p :
  (2 ^ N.of_nat k <= Npos p)%N → (k < Pos.size_nat p)%nat.
Proof.
  revert p. induction k as [|k IH]; intros p Hp.
  - destruct p; simpl; lia.
  - rewrite Nat2N.inj_succ, N.pow_succ_r' in Hp.
    destruct p as [p|p|]; simpl.
    + apply -> Nat.succ_lt_mono. apply IH. lia.
    + apply -> Nat.succ_lt_mono. apply IH. lia.
    + assert (0 < 2 ^ N.of_nat k)%N by (apply N.neq_0_lt_0, N.pow_nonzero; lia). lia.
Qed.

Lemma length_format_08b_ge n : (8 ≤ length (format_08b n))%nat.
Proof. unfold format_08b. rewrite length_app, length_replicate. lia. Qed.

Lemma length_format_08b_wide n : (256 <= n)%N → (8 < length (format_08b n))%nat.
Proof.
  intros Hn. unfold format_08b. rewrite length_app, length_replicate.
  destruct n as [|p]; [lia|]. simpl. rewrite length_bin_pos.
  pose proof (size_nat_lower 8 p ltac:(change (2 ^ N.of_nat 8)%N with 256%N; lia)).
  lia.
Qed.

(** X12: the bit string of a text has at least eight bits per character,
    and exactly eight per character if and only if every code point is
    below 256. *)
Theorem bits_per_character data :
  (8 * length data ≤ length (to_binary data))%nat
  ∧ (length (to_binary data) = (8 * length data)%nat
     ↔ Forall (λ c, c < 256)%N data).
Proof.
  induction data as [|c data [IHle IHeq]].
  - split; [done|]. split; [constructor|done].
  - rewrite to_binary_cons, length_app. cbn [length].
    pose proof (length_format_08b_ge c) as Hge.
    split; [lia|]. split.
    + intros Hlen.
      destruct (decide (c < 256)%N) as [Hc|Hc].
      * constructor; [done|]. apply IHeq.
        rewrite length_format_08b in Hlen by done. lia.
      * pose proof (length_format_08b_wide c ltac:(lia)). lia.
    + intros Hall. apply Forall_cons in Hall as [Hc Hall].
      rewrite length_format_08b by done. apply IHeq in Hall. lia.
Qed.


Lemma prefix_take_drop (sub s : bitstr) j :
  sub `prefix_of` drop j s ↔ take (length sub) (drop j s) = sub.
Proof.
  split.
  - intros [rest ->]. by rewrite take_app_length.
  - intros <-. apply prefix_take.
Qed.

Lemma take_drop_agree {A} (s1 s2 : list A) n j m :
  take n s1 = take n s2 → (j + m ≤ n)%nat →
  take m (drop j s1) = take m (drop j s2).
Proof.
  intros Heq Hle. apply list_eq. intros i.
  destruct (decide (i < m)%nat) as [Hi|Hi].
  - rewrite !lookup_take_lt, !lookup_drop by done.
    rewrite <- (lookup_take_lt s1 n), <- (lookup_take_lt s2 n) by lia.
    by rewrite Heq.
  - by rewrite !lookup_take_ge by lia.
Qed.

(** The search for the marker looks at nothing beyond the first marker. *)
Lemma find_local s1 s2 idx :
  find s1 delimiter = Some idx →
  take (idx + 16) s2 = take (idx + 16) s1 →
  find s2 delimiter = Some idx ∧ take idx s2 = take idx s1.
Proof.
  intros Hfind Heq.
  pose proof (find_Some_bound _ _ Hfind) as Hbound.
  apply find_from_Some in Hfind as (k & Hk & Hat & Hmin). simpl in Hk. subst k.
  assert (∀ j, (j ≤ idx)%nat →
          (delimiter `prefix_of` drop j s2 ↔ delimiter `prefix_of` drop j s1))
    as Hsame.
  { intros j Hj. rewrite !prefix_take_drop, length_delimiter.
    by rewrite (take_drop_agree s2 s1 (idx + 16) j 16 Heq) by lia. }
  split.
  - unfold find. rewrite (find_from_first _ _ 0 idx); [done| |].
    + intros j Hj. rewrite Hsame by lia. by apply Hmin.
    + by apply Hsame.
  - pose proof (take_drop_agree s2 s1 (idx + 16) 0 idx Heq ltac:(lia)) as Ht.
    by rewrite !drop_0 in Ht.
Qed.

Lemma extract_data_body_at w image_path img password idx :
  files w !! image_path = Some img →
  let binary_data := extract_lsbs (flatten (np_array (rgb_view img))) in
  find binary_data delimiter = Some idx →
  extract_data_body image_path password w =
    (if decide (length (take idx binary_data) `mod` 8 ≠ 0)%nat then
       raise (ValueError "Invalid data length - not divisible by 8")
     else
       let! extracted_text :=
         (if truthy_opt password then
            try_except
              (_decrypt_data (decode_text (take idx binary_data)) (default [] password))
              (λ _, raise (ValueError "Incorrect password or corrupted encrypted data"))
          else ret (decode_text (take idx binary_data))) in
       if negb (truthy extracted_text) then
         raise (ValueError "No valid data could be extracted")
       else ret extracted_text) w.
Proof.
  intros Hf binary_data Hfind.
  unfold extract_data_body. unfold bind at 1. rewrite (open_rgb_Some _ _ _ Hf).
  fold binary_data. by rewrite Hfind.
Qed.

Lemma _decrypt_data_any_state encrypted_data password w w' :
  fst (_decrypt_data encrypted_data password w)
  = fst (_decrypt_data encrypted_data password w').
Proof.
  rewrite !_decrypt_data_run. cbv zeta.
  destruct (utf8_encode _); [|done].
  destruct (b64decode _); [|done].
  destruct (PBKDF2 _ _ _ _); [|done].
  repeat case_decide; done.
Qed.

(** X13: extraction depends only on the least significant bits up to the
    end of the first marker: two images whose bit strings agree that far
    give the same outcome, whatever the higher bits and the samples
    behind the marker are. *)
Theorem extraction_reads_marked_prefix w1 w2 path1 path2 img1 img2 password idx :
  files w1 !! path1 = Some img1 →
  files w2 !! path2 = Some img2 →
  let bits1 := extract_lsbs (flatten (np_array (rgb_view img1))) in
  let bits2 := extract_lsbs (flatten (np_array (rgb_view img2))) in
  find bits1 delimiter = Some idx →
  take (idx + 16) bits2 = take (idx + 16) bits1 →
  fst (extract_data path2 password w2) = fst (extract_data path1 password w1).
Proof.
  intros Hf1 Hf2 bits1 bits2 Hfind1 Heq.
  destruct (find_local bits1 bits2 idx Hfind1 Heq) as [Hfind2 Htake].
  unfold extract_data, try_except.
  rewrite (extract_data_body_at _ _ _ password _ Hf1 Hfind1).
  rewrite (extract_data_body_at _ _ _ password _ Hf2 Hfind2).
  fold bits1 bits2. rewrite Htake.
  destruct (decide _); [done|].
  unfold bind.
  destruct (truthy_opt password).
  - unfold try_except.
    pose proof (_decrypt_data_any_state (decode_text (take idx bits1))
                  (default [] password) w1 w2) as Hd.
    destruct (_decrypt_data _ _ w1) as [[t1|e1] w1'],
             (_decrypt_data _ _ w2) as [[t2|e2] w2']; simpl in Hd; simplify_eq.
    + by destruct (negb (truthy t2)).
    + done.
  - unfold ret, raise. simpl.
    by destruct (negb (truthy (decode_text (take idx bits1)))).
Qed.

End Beyond.

(** ** How a failure ends a call *)

Section Failures.
Context `{Platform}.

(** Every way through [_encrypt_data]: the salt is drawn, then the key
    derived, the nonce drawn and the text encoded; the first step that
    fails ends the call with its message after "Encryption failed: ". *)
Lemma _encrypt_data_run data password w :
  let salt := urandom <$> seq (drawn w) 16 in
  let nonce := urandom <$> seq (drawn w + 16) 16 in
  _encrypt_data data password w =
    match PBKDF2 password salt 32 100000%N with
    | Raised e =>
        (Raised (Exception ("Encryption failed: " +:+ exn_msg e)),
         World (files w) (drawn w + 16))
    | Returned key =>
        match utf8_encode data with
        | Raised e =>
            (Raised (Exception ("Encryption failed: " +:+ exn_msg e)),
             World (files w) (drawn w + 16 + 16))
        | Returned plaintext =>
            let ciphertext := gcm_encrypt key nonce plaintext in
            let tag := gcm_digest key nonce ciphertext in
            (match utf8_decode (b64encode (salt ++ nonce ++ tag ++ ciphertext)) with
             | Raised e => Raised (Exception ("Encryption failed: " +:+ exn_msg e))
             | Returned encrypted_data => Returned encrypted_data
             end, World (files w) (drawn w + 16 + 16))
        end
    end.
Proof.
  unfold _encrypt_data, try_except, _encrypt_data_body, bind, lift, AES_new,
    bind, get_random_bytes, ret, raise. simpl.
  destruct (PBKDF2 _ _ _ _) as [key|]; [|done].
  destruct (utf8_encode data) as [plaintext|]; [|done]. simpl.
  by destruct (utf8_decode _).
Qed.

(** [hide_data] on an image that is on disk: a failed encryption and a
    bit string longer than the image has samples both end as [None]. *)
Lemma hide_data_outcome image_path secret_data password output_path w img :
  files w !! image_path = Some img →
  ndarray_wf (np_array (rgb_view img)) →
  hide_data image_path secret_data password output_path w =
    match data_to_hide_of secret_data password w with
    | (Raised _, w1) => (Returned None, w1)
    | (Returned data, w1) =>
        let binary_data := to_binary data ++ delimiter in
        if decide (length binary_data > size (np_array (rgb_view img)))%nat then
          (Returned None, w1)
        else
          let p := output_path_of output_path image_path in
          (Returned (Some p),
           World (<[p := stego_image img binary_data]> (files w1)) (drawn w1))
    end.
Proof.
  intros Hf [Hwf _].
  destruct (data_to_hide_of secret_data password w) as [[data|e] w1] eqn:Hd.
  - unfold hide_data, try_except.
    rewrite (hide_data_body_run _ _ _ _ _ _ output_path _ Hf Hd). cbv zeta.
    destruct (decide (_ > _)%nat); [done|]. by rewrite decide_True.
  - unfold hide_data, try_except.
    by rewrite (hide_data_body_no_data _ _ _ _ _ _ output_path _ Hf Hd).
Qed.

(** [hide_data]'s body returns nothing but a path. *)
Lemma hide_data_body_Returned image_path secret_data password output_path w r w' :
  hide_data_body image_path secret_data password output_path w = (Returned r, w') →
  r = Some (output_path_of output_path image_path).
Proof.
  destruct (files w !! image_path) as [img|] eqn:Hf.
  - destruct (data_to_hide_of secret_data password w) as [[data|e1] w1] eqn:Hd.
    + rewrite (hide_data_body_run _ _ _ _ _ _ _ _ Hf Hd).
      repeat case_decide; intros; by simplify_eq.
    + rewrite (hide_data_body_no_data _ _ _ _ _ _ _ _ Hf Hd).
      intros; by simplify_eq.
  - unfold hide_data_body. unfold bind at 1.
    rewrite (open_rgb_None _ _ Hf). intros; by simplify_eq.
Qed.

(** C8, as amended: what a failure inside each operation becomes.

    Inside [_encrypt_data] and [_decrypt_data] every step that can fail
    (the key derivation, the codecs, the check of the nonce, the
    verification of the tag) ends the call where it fails and reaches the
    caller as the exception "Encryption failed: ..." or "Decryption
    failed: ..." followed by the cause.

    Inside [extract_data] a file that does not open, a marker that is not
    found or not at a multiple of 8, a decryption that fails and a text
    that is empty end the call as the exception "Data extraction failed:
    ..."; the cause follows, except that of a failed decryption, in whose
    place "Incorrect password or corrupted encrypted data" is given. A
    byte above 127 before the marker is no failure: it ends the text, and
    the text before it is returned.

    Inside [hide_data] a file that does not open, an encryption that
    fails and a bit string longer than the image has samples end the call
    too, and no file is written; the caller is given the return value
    [None] and no exception. *)
Theorem failures_end_the_call :
  (∀ image_path secret_data password output_path w,
     files w !! image_path = None →
     hide_data image_path secret_data password output_path w = (Returned None, w))
  ∧ (∀ image_path secret_data password output_path w img,
       files w !! image_path = Some img →
       ndarray_wf (np_array (rgb_view img)) →
       hide_data image_path secret_data password output_path w =
         match data_to_hide_of secret_data password w with
         | (Raised _, w1) => (Returned None, w1)
         | (Returned data, w1) =>
             let binary_data := to_binary data ++ delimiter in
             if decide (length binary_data > size (np_array (rgb_view img)))%nat then
               (Returned None, w1)
             else
               let p := output_path_of output_path image_path in
               (Returned (Some p),
                World (<[p := stego_image img binary_data]> (files w1)) (drawn w1))
         end)
  ∧ (∀ image_path secret_data password output_path w,
       fst (hide_data image_path secret_data password output_path w) = Returned None →
       files (snd (hide_data image_path secret_data password output_path w)) = files w)
  ∧ (∀ image_path password w,
       extract_data image_path password w =
         match files w !! image_path with
         | None =>
             (Raised (Exception ("Data extraction failed: "
                                 +:+ exn_msg (Image_open_error image_path))), w)
         | Some img =>
             let binary_data := extract_lsbs (flatten (np_array (rgb_view img))) in
             match find binary_data delimiter with
             | None =>
                 (Raised (Exception
                            "Data extraction failed: No hidden data found or data corrupted"),
                  w)
             | Some idx =>
                 if decide (idx `mod` 8 ≠ 0)%nat then
                   (Raised (Exception
                              "Data extraction failed: Invalid data length - not divisible by 8"),
                    w)
                 else
                   let recovered :=
                     ascii_prefix (reconstructed (take idx binary_data)) in
                   if truthy_opt password then
                     match _decrypt_data recovered (default [] password) w with
                     | (Raised _, w') =>
                         (Raised (Exception "Data extraction failed: Incorrect password or corrupted encrypted data"),
                          w')
                     | (Returned [], w') =>
                         (Raised (Exception
                                    "Data extraction failed: No valid data could be extracted"),
                          w')
                     | (Returned text, w') => (Returned text, w')
                     end
                   else
                     match recovered with
                     | [] =>
                         (Raised (Exception
                                    "Data extraction failed: No valid data could be extracted"),
                          w)
                     | text => (Returned text, w)
                     end
             end
         end)
  ∧ (∀ data password w,
       let salt := urandom <$> seq (drawn w) 16 in
       let nonce := urandom <$> seq (drawn w + 16) 16 in
       _encrypt_data data password w =
         match PBKDF2 password salt 32 100000%N with
         | Raised e =>
             (Raised (Exception ("Encryption failed: " +:+ exn_msg e)),
              World (files w) (drawn w + 16))
         | Returned key =>
             match utf8_encode data with
             | Raised e =>
                 (Raised (Exception ("Encryption failed: " +:+ exn_msg e)),
                  World (files w) (drawn w + 16 + 16))
             | Returned plaintext =>
                 let ciphertext := gcm_encrypt key nonce plaintext in
                 let tag := gcm_digest key nonce ciphertext in
                 (match utf8_decode
                          (b64encode (salt ++ nonce ++ tag ++ ciphertext)) with
                  | Raised e =>
                      Raised (Exception ("Encryption failed: " +:+ exn_msg e))
                  | Returned encrypted_data => Returned encrypted_data
                  end, World (files w) (drawn w + 16 + 16))
             end
         end)
  ∧ (∀ encrypted_data password w,
       _decrypt_data encrypted_data password w =
         match utf8_encode encrypted_data with
         | Raised e =>
             (Raised (Exception ("Decryption failed: " +:+ exn_msg e)), w)
         | Returned encoded =>
             match b64decode encoded with
             | Raised e =>
                 (Raised (Exception ("Decryption failed: " +:+ exn_msg e)), w)
             | Returned encrypted_bytes =>
                 let nonce := slice 16 32 encrypted_bytes in
                 let ciphertext := drop 48 encrypted_bytes in
                 match PBKDF2 password (slice 0 16 encrypted_bytes) 32 100000%N with
                 | Raised e =>
                     (Raised (Exception ("Decryption failed: " +:+ exn_msg e)), w)
                 | Returned key =>
                     if decide (nonce = []) then
                       (Raised (Exception "Decryption failed: Nonce cannot be empty"),
                        w)
                     else if decide (slice 32 48 encrypted_bytes
                                     = gcm_digest key nonce ciphertext) then
                       (match utf8_decode (gcm_decrypt key nonce ciphertext) with
                        | Raised e =>
                            Raised (Exception ("Decryption failed: " +:+ exn_msg e))
                        | Returned text => Returned text
                        end, World (files w) (drawn w + 16))
                     else
                       (Raised (Exception "Decryption failed: MAC check failed"),
                        World (files w) (drawn w + 16))
                 end
             end
         end).
Proof.
  split; [|split; [|split; [|split; [|split]]]].
  - intros * Hf. unfold hide_data, try_except, hide_data_body. unfold bind at 1.
    by rewrite (open_rgb_None _ _ Hf).
  - intros *. apply hide_data_outcome.
  - intros image_path secret_data password output_path w.
    unfold hide_data, try_except.
    destruct (hide_data_body image_path secret_data password output_path w)
      as [[r|e] w'] eqn:Hbody; simpl.
    + intros Hr. apply hide_data_body_Returned in Hbody. by simplify_eq.
    + intros _. by eapply hide_data_body_Raised_files.
  - apply extract_data_run.
  - apply _encrypt_data_run.
  - apply _decrypt_data_run.
Qed.

End Failures.

(** ** Image ids and file names *)

Lemma list_ascii_of_string_app a b :
  list_ascii_of_string (a +:+ b) = list_ascii_of_string a ++ list_ascii_of_string b.
Proof. induction a as [|c a IH]; simpl; [done|]. by rewrite IH. Qed.

Lemma py_app a b : py (a +:+ b) = py a ++ py b.
Proof. unfold py. by rewrite list_ascii_of_string_app, fmap_app. Qed.

Lemma pretty_N_char_code d :
  (d < 10)%N → N_of_ascii (pretty_N_char d) = (48 + d)%N.
Proof.
  intros Hd.
  assert (d = 0 ∨ d = 1 ∨ d = 2 ∨ d = 3 ∨ d = 4 ∨ d = 5 ∨ d = 6 ∨ d = 7
          ∨ d = 8 ∨ d = 9)%N as Hc by lia.
  destruct Hc as [->|[->|[->|[->|[->|[->|[->|[->|[->| ->]]]]]]]]]; reflexivity.
Qed.

(** The decimal digits [str] writes for a number of [k + 1] digits. *)
Lemma py_pretty_N_go (k : nat) x s :
  (10 ^ N.of_nat k <= x < 10 ^ N.of_nat (S k))%N →
  ∃ ds, length ds = S k
        ∧ Forall (λ c, 48 <= c <= 57)%N ds
        ∧ py (pretty_N_go x s) = ds ++ py s.
Proof.
  revert x s. induction k as [|k IH]; intros x s Hx.
  - change (10 ^ N.of_nat 0)%N with 1%N in Hx.
    change (10 ^ N.of_nat 1)%N with 10%N in Hx.
    rewrite pretty_N_go_step by lia.
    rewrite (N.div_small x 10) by lia. rewrite pretty_N_go_0.
    rewrite (N.mod_small x 10) by lia.
    exists [N_of_ascii (pretty_N_char x)]. split; [done|]. split; [|done].
    apply Forall_singleton. rewrite pretty_N_char_code by lia. lia.
  - rewrite !Nat2N.inj_succ, !N.pow_succ_r' in Hx.
    rewrite Nat2N.inj_succ, N.pow_succ_r' in IH.
    assert (0 < 10 ^ N.of_nat k)%N as Hpos.
    { apply N.neq_0_lt_0, N.pow_nonzero. lia. }
    rewrite pretty_N_go_step by lia.
    pose proof (N.div_mod x 10 ltac:(lia)) as Hdm.
    pose proof (N.mod_lt x 10 ltac:(lia)) as Hm.
    assert (10 ^ N.of_nat k <= x `div` 10 < 10 * 10 ^ N.of_nat k)%N as Hq.
    { clear IH. generalize dependent (10 ^ N.of_nat k)%N. intros a Ha Hpos.
      generalize dependent (x `div` 10)%N. intros q Hq.
      generalize dependent (x `mod` 10)%N. intros r Hq Hr. lia. }
    destruct (IH (x `div` 10)%N (String (pretty_N_char (x `mod` 10)) s))
      as (ds & Hlen & Hds & Heq); [exact Hq|].
    exists (ds ++ [N_of_ascii (pretty_N_char (x `mod` 10))]).
    split; [rewrite length_app, Hlen; cbn [length]; lia|]. split.
    + apply Forall_app. split; [done|]. apply Forall_singleton.
      rewrite pretty_N_char_code by done.
      clear -Hm. generalize dependent (x `mod` 10)%N. intros r Hr. lia.
    + rewrite Heq. by rewrite <- app_assoc.
Qed.

Lemma digits_exist x :
  (0 < x)%N → ∃ k : nat, (10 ^ N.of_nat k <= x < 10 ^ N.of_nat (S k))%N.
Proof.
  induction (N.lt_wf_0 x) as [x _ IH]. intros Hx.
  destruct (decide (x < 10)%N) as [Hlt|Hge].
  - exists 0%nat. change (10 ^ N.of_nat 0)%N with 1%N.
    change (10 ^ N.of_nat 1)%N with 10%N. lia.
  - pose proof (N.div_mod x 10 ltac:(lia)) as Hdm.
    pose proof (N.mod_lt x 10 ltac:(lia)) as Hm.
    set (q := (x `div` 10)%N) in *. set (r := (x `mod` 10)%N) in *.
    clearbody q r.
    destruct (IH q) as [k Hk]; [lia|lia|].
    exists (S k). rewrite !Nat2N.inj_succ, !N.pow_succ_r' in *.
    set (a := (10 ^ N.of_nat k)%N) in *. clearbody a. lia.
Qed.

Lemma digits_count (k : nat) x :
  (10 ^ N.of_nat k <= x < 10 ^ N.of_nat (S k))%N →
  (S k = 10%nat ↔ 10 ^ 9 <= x < 10 ^ 10)%N.
Proof.
  intros Hx. split.
  - intros Hk. assert (k = 9%nat) as -> by lia. exact Hx.
  - intros Hr.
    destruct (decide (k < 9)%nat) as [Hlt|Hge].
    + assert (10 ^ N.of_nat (S k) <= 10 ^ 9)%N; [|lia].
      apply N.pow_le_mono_r; lia.
    + destruct (decide (9 < k)%nat) as [Hgt|Hle]; [|lia].
      assert (10 ^ 10 <= 10 ^ N.of_nat k)%N; [|lia].
      apply N.pow_le_mono_r; lia.
Qed.

Lemma str_of_int_pos t :
  0 < t →
  ∃ (k : nat) ds,
    (10 ^ N.of_nat k <= Z.to_N t < 10 ^ N.of_nat (S k))%N
    ∧ length ds = S k
    ∧ Forall (λ c, 48 <= c <= 57)%N ds
    ∧ str_of_int t = ds.
Proof.
  intros Ht. destruct t as [|p|p]; [lia| |lia].
  destruct (digits_exist (Npos p) ltac:(lia)) as [k Hk].
  destruct (py_pretty_N_go k (Npos p) "" Hk) as (ds & Hlen & Hds & Heq).
  exists k, ds. split; [exact Hk|]. split; [done|]. split; [done|].
  unfold str_of_int. change (pretty (Z.pos p)) with (pretty_N_go (N.pos p) "").
  rewrite Heq. apply app_nil_r.
Qed.

Lemma str_of_int_neg t : t < 0 → ∃ r, str_of_int t = 45%N :: r.
Proof.
  intros Ht. destruct t as [|p|p]; [lia|lia|].
  unfold str_of_int. change (pretty (Z.neg p)) with ("-" +:+ pretty p).
  rewrite py_app. eauto.
Qed.

Section RegexFacts.
Variable unicode_decimal : N → bool.
Hypothesis decimal_ascii :
  ∀ c, (c < 128)%N → unicode_decimal c = ascii_decimal c.

Lemma match_atoms_app p1 p2 s :
  match_atoms unicode_decimal (p1 ++ p2) s
  = match_atoms unicode_decimal p1 s ≫= match_atoms unicode_decimal p2.
Proof.
  revert s. induction p1 as [|a p1 IH]; intros s; simpl; [done|].
  destruct s as [|c s]; [done|]. destruct (atom_matches _ a c); [apply IH|done].
Qed.

Lemma match_lits l r :
  match_atoms unicode_decimal (Lit <$> l) (l ++ r) = Some r.
Proof.
  induction l as [|c l IH]; simpl; [done|]. by rewrite N.eqb_refl.
Qed.

Lemma digit_matches c : (48 <= c <= 57)%N → unicode_decimal c = true.
Proof.
  intros Hc. rewrite decimal_ascii by lia. unfold ascii_decimal.
  apply andb_true_intro. split; apply N.leb_le; lia.
Qed.

Lemma match_digits n ds r :
  length ds = n → Forall (λ c, 48 <= c <= 57)%N ds →
  match_atoms unicode_decimal (replicate n Digit) (ds ++ r) = Some r.
Proof.
  intros <- Hds. induction Hds as [|c ds Hc _ IH]; simpl; [done|].
  by rewrite digit_matches.
Qed.

Lemma match_digits_stop n p ds r :
  (length ds < n)%nat → Forall (λ c, 48 <= c <= 57)%N ds →
  match_atoms unicode_decimal (replicate n Digit ++ p) (ds ++ 45%N :: r) = None.
Proof.
  intros Hlen Hds. revert n Hlen.
  induction Hds as [|c ds Hc _ IH]; intros n Hlen.
  - destruct n as [|n]; [simpl in Hlen; lia|]. simpl.
    by rewrite decimal_ascii.
  - destruct n as [|n]; [simpl in Hlen; lia|]. simpl.
    rewrite digit_matches by done. apply IH. simpl in Hlen. lia.
Qed.

Lemma hex_digit_matches d :
  (d < 16)%N →
  atom_matches unicode_decimal (Class [(97, 102); (48, 57)]%N) (hex_digit d) = true.
Proof.
  intros Hd.
  assert (d = 0 ∨ d = 1 ∨ d = 2 ∨ d = 3 ∨ d = 4 ∨ d = 5 ∨ d = 6 ∨ d = 7
          ∨ d = 8 ∨ d = 9 ∨ d = 10 ∨ d = 11 ∨ d = 12 ∨ d = 13 ∨ d = 14
          ∨ d = 15)%N as Hc by lia.
  repeat (destruct Hc as [->|Hc]; [reflexivity|]). by subst.
Qed.

Lemma match_token_hex random r :
  match_atoms unicode_decimal
    (replicate (2 * length random) (Class [(97, 102); (48, 57)]%N))
    (token_hex random ++ r) = Some r.
Proof.
  induction random as [|b random IH]; [done|].
  replace (2 * length (b :: random))%nat with (S (S (2 * length random)))
    by (simpl; lia).
  cbn [replicate token_hex mbind list_bind app]. cbn [match_atoms].
  rewrite !hex_digit_matches; [exact IH| |].
  - destruct b; vm_compute; reflexivity.
  - destruct b; vm_compute; reflexivity.
Qed.

End RegexFacts.

Section ImageIds.
Variable unicode_decimal : N → bool.
Hypothesis decimal_ascii :
  ∀ c, (c < 128)%N → unicode_decimal c = ascii_decimal c.

Lemma validate_generated t random ts :
  str_of_int t = ts →
  validate_image_id unicode_decimal (generate_image_id t random)
  = match match_atoms unicode_decimal
            (replicate 10 Digit ++ [Lit 45%N]
             ++ replicate 16 (Class [(97, 102); (48, 57)]%N))
            (ts ++ 45%N :: token_hex random) with
    | Some rest => at_end rest
    | None => false
    end.
Proof.
  intros <-. unfold validate_image_id, generate_image_id, re_match_image_id,
    image_id_pattern.
  change (negb (truthy (py "IMG-" ++ _))) with false. cbn [negb].
  rewrite match_atoms_app, match_lits. reflexivity.
Qed.

(** X14: an id made by [generate_image_id] passes [validate_image_id]
    exactly when the clock reading has ten decimal digits, that is from
    10^9 up to 10^10 - 1 seconds; [\d] is taken to match, below code
    point 128, the ASCII digits only. *)
Theorem generated_id_is_valid t random :
  length random = 8%nat →
  validate_image_id unicode_decimal (generate_image_id t random) = true
  ↔ 10 ^ 9 <= t < 10 ^ 10.
Proof.
  intros Hlen.
  destruct (decide (t < 0)) as [Hneg|Hnonneg].
  { destruct (str_of_int_neg t Hneg) as [r Hr].
    rewrite (validate_generated t random _ Hr). simpl.
    rewrite decimal_ascii by lia. simpl. split; [done|lia]. }
  destruct (decide (t = 0)) as [->|Hnz].
  { rewrite (validate_generated 0 random [48%N] eq_refl).
    rewrite (match_digits_stop unicode_decimal decimal_ascii 10 _ [48%N])
      by (simpl; (lia || (repeat constructor; lia))).
    split; [done|lia]. }
  destruct (str_of_int_pos t ltac:(lia)) as (k & ds & Hk & Hds_len & Hds & Hts).
  rewrite (validate_generated t random ds Hts).
  pose proof (digits_count k (Z.to_N t) Hk) as Hcount.
  assert ((10 ^ 9 <= Z.to_N t < 10 ^ 10)%N ↔ 10 ^ 9 <= t < 10 ^ 10) as Hrange.
  { change (10 ^ 9)%N with (Z.to_N (10 ^ 9)).
    change (10 ^ 10)%N with (Z.to_N (10 ^ 10)). lia. }
  rewrite <- Hrange, <- Hcount. clear Hrange Hcount Hk.
  destruct (decide (S k < 10)%nat) as [Hshort|Hnshort].
  { rewrite match_digits_stop by (done || lia). split; [done|lia]. }
  destruct (decide (S k = 10)%nat) as [Hten|Hlong].
  { rewrite match_atoms_app.
    rewrite (match_digits unicode_decimal decimal_ascii 10 ds) by (done || lia).
    cbn [mbind option_bind]. cbn [app match_atoms atom_matches].
    rewrite N.eqb_refl.
    pose proof (match_token_hex unicode_decimal random []) as Hhex.
    rewrite Hlen, app_nil_r in Hhex. change (2 * 8)%nat with 16%nat in Hhex.
    rewrite Hhex. done. }
  rewrite <- (take_drop 10 ds), <- app_assoc.
  rewrite match_atoms_app.
  rewrite (match_digits unicode_decimal decimal_ascii 10 (take 10 ds)).
  - destruct (drop 10 ds) as [|d rest] eqn:Hdrop.
    { apply (f_equal length) in Hdrop. rewrite length_drop in Hdrop.
      simpl in Hdrop. lia. }
    assert (48 <= d <= 57)%N as Hd.
    { assert (Forall (λ c, 48 <= c <= 57)%N (drop 10 ds)) as Hdd
        by by apply Forall_drop.
      rewrite Hdrop in Hdd. by apply Forall_cons in Hdd as [? _]. }
    cbn [mbind option_bind]. cbn [app match_atoms atom_matches].
    assert ((d =? 45)%N = false) as -> by (apply N.eqb_neq; lia).
    split; [done|lia].
  - rewrite length_take. lia.
  - by apply Forall_take.
Qed.

End ImageIds.

Section IdShape.
Variable unicode_decimal : N → bool.

Lemma match_atoms_Some p s r :
  match_atoms unicode_decimal p s = Some r →
  ∃ m, s = m ++ r ∧ length m = length p
       ∧ ∀ r', match_atoms unicode_decimal p (m ++ r') = Some r'.
Proof.
  revert s. induction p as [|a p IH]; intros s Hm; simpl in Hm.
  - simplify_eq. exists []. done.
  - destruct s as [|c s]; [done|].
    destruct (atom_matches unicode_decimal a c) eqn:Hc; [|done].
    destruct (IH s Hm) as (m & -> & Hlen & Hext).
    exists (c :: m). split; [done|]. split; [simpl; lia|].
    intros r'. simpl. by rewrite Hc.
Qed.

(** X15: an id that [validate_image_id] accepts starts with "IMG-" and
    has 31 characters, or 32 when it ends in a newline; and an accepted
    id of 31 characters is accepted again with a newline appended, since
    [$] also matches before a final newline. *)
Theorem valid_id_shape image_id :
  validate_image_id unicode_decimal image_id = true →
  take 4 image_id = py "IMG-"
  ∧ (length image_id = 31%nat
     ∨ (length image_id = 32%nat ∧ last image_id = Some 10%N))
  ∧ (length image_id = 31%nat →
     validate_image_id unicode_decimal (image_id ++ [10%N]) = true).
Proof.
  unfold validate_image_id, re_match_image_id.
  destruct image_id as [|c0 s0] eqn:Hid; [done|]. rewrite <- Hid. clear Hid.
  intros Hv.
  assert (negb (truthy image_id) = false) as Hne.
  { destruct image_id; [|done]. simpl in Hv. done. }
  rewrite Hne in Hv.
  destruct (match_atoms unicode_decimal image_id_pattern image_id) as [rest|] eqn:Hm;
    [|done].
  destruct (match_atoms_Some _ _ _ Hm) as (m & -> & Hlen & Hext).
  change (length image_id_pattern) with 31%nat in Hlen.
  split; [|split].
  - unfold image_id_pattern in Hm. rewrite match_atoms_app in Hm.
    destruct (match_atoms unicode_decimal (Lit <$> py "IMG-") (m ++ rest))
      as [r1|] eqn:Hlit; [|done].
    clear -Hlit.
    destruct (m ++ rest) as [|c1 [|c2 [|c3 [|c4 l]]]]; simpl in Hlit; try done;
      repeat (match type of Hlit with
              | (if (?c =? ?x)%N then _ else _) = _ =>
                  destruct (N.eqb_spec c x); [subst|done]
              end; simpl in Hlit); done.
  - rewrite length_app, Hlen.
    destruct rest as [|c [|c' rest]]; simpl in Hv.
    + left. simpl. lia.
    + right. apply N.eqb_eq in Hv. subst c. split; [simpl; lia|].
      by rewrite last_snoc.
    + done.
  - intros Hl. rewrite length_app, Hlen in Hl.
    assert (rest = []) as -> by (destruct rest; [done|simpl in Hl; lia]).
    rewrite app_nil_r.
    assert (negb (truthy (m ++ [10%N])) = false) as ->.
    { destruct m; [simpl in Hlen; lia|done]. }
    by rewrite Hext.
Qed.

End IdShape.

Section FilenameFacts.
Variable str_lower : pystr → pystr.

Lemma before_first_app sep a b :
  sep ∉ a → before_first sep (a ++ sep :: b) = a.
Proof.
  induction a as [|c a IH]; intros Hnot; simpl.
  - by rewrite N.eqb_refl.
  - destruct (N.eqb_spec c sep) as [->|Hne].
    + exfalso. apply Hnot. by left.
    + f_equal. apply IH. intros Hin. apply Hnot. by right.
Qed.

Lemma rsplit_last_app sep stem ext :
  sep ∉ ext → rsplit_last sep (stem ++ sep :: ext) = ext.
Proof.
  intros Hnot. unfold rsplit_last.
  rewrite reverse_app, reverse_cons, <- app_assoc. simpl.
  rewrite before_first_app; [apply reverse_involutive|].
  by rewrite elem_of_reverse.
Qed.

(** X16: [allowed_file] decides by the text after the last dot alone:
    for an extension without a dot the answer is whether its lowercase
    form is one of the allowed extensions, whatever precedes the dot,
    even nothing; a name without a dot is refused. *)
Theorem allowed_file_by_last_extension stem ext :
  46%N ∉ ext →
  allowed_file str_lower (stem ++ 46%N :: ext)
  = bool_decide (str_lower ext ∈ ALLOWED_EXTENSIONS)
  ∧ (46%N ∉ stem → allowed_file str_lower stem = false).
Proof.
  intros Hext. split.
  - unfold allowed_file.
    assert (negb (truthy (stem ++ 46%N :: ext)) = false) as ->
      by by destruct stem.
    rewrite (bool_decide_eq_true_2 (46%N ∈ stem ++ 46%N :: ext))
      by (apply elem_of_app; right; by left).
    by rewrite rsplit_last_app.
  - intros Hstem. unfold allowed_file.
    destruct (negb (truthy stem)); [done|].
    by rewrite (bool_decide_eq_false_2 (46%N ∈ stem)).
Qed.

End FilenameFacts.

(** * The properties on an example *)

Import Example.

Lemma carrier_on_disk : files disk !! "in.png" = Some carrier.
Proof. reflexivity. Qed.

Lemma carrier_wf : ndarray_wf (np_array (rgb_view carrier)).
Proof.
  split; [reflexivity|]. apply Forall_forall. intros v Hv.
  apply list_elem_of_fmap in Hv as (i & -> & _). unfold uint8.
  pose proof (Nat.mod_upper_bound (i * 7) 256 ltac:(done)). lia.
Qed.

Lemma roundtrip_ascii_no_password_witness :
  ∃ p w',
    hide_data "in.png" (py "hi") [] (Some "out.png") disk = (Returned (Some p), w')
    ∧ extract_data p None w' = (Returned (py "hi"), w').
Proof.
  apply (roundtrip_ascii_no_password disk "in.png" carrier).
  - exact carrier_on_disk.
  - exact carrier_wf.
  - done.
  - unfold py. simpl. repeat constructor; lia.
  - vm_compute. lia.
Defined.

(** C1, as stated, fails: the empty string and a string with a character
    above 127 are embedded, and extraction raises instead of returning
    them. *)
Lemma roundtrip_no_password_fails :
  (let r := hide_data "in.png" [] [] (Some "out.png") disk in
   fst r = Returned (Some "out.png")
   ∧ fst (extract_data "out.png" None (snd r))
     = Raised (Exception "Data extraction failed: No valid data could be extracted"))
  ∧ (let r := hide_data "in.png" [233%N] [] (Some "out.png") disk in
     fst r = Returned (Some "out.png")
     ∧ fst (extract_data "out.png" None (snd r))
       = Raised (Exception "Data extraction failed: No valid data could be extracted")).
Proof. vm_compute. auto. Qed.

Lemma capacity_is_floor_witness :
  ∃ report,
    analyze_image_capacity "in.png" disk = (Returned report, disk)
    ∧ total_pixels report = 300%nat
    ∧ max_bytes report = 35.
Proof.
  destruct (capacity_is_floor disk "in.png" carrier carrier_on_disk)
    as (report & Hrun & Htotal & Hmax & _).
  exists report. split; [exact Hrun|]. split; [exact Htotal|exact Hmax].
Defined.

Lemma capacity_check_witness :
  hide_data "in.png" (replicate 40 65%N) [] (Some "out.png") disk
  = (Returned None, disk).
Proof.
  destruct (capacity_check disk disk "in.png" carrier (replicate 40 65%N) []
              (Some "out.png") (replicate 40 65%N)
              carrier_on_disk carrier_wf eq_refl) as (Hfail & _).
  apply Hfail. vm_compute. lia.
Defined.

Lemma embedding_frame_witness :
  ∃ p w2 stego,
    hide_data "in.png" (py "hi") [] (Some "out.png") disk = (Returned (Some p), w2)
    ∧ files w2 !! p = Some stego
    ∧ ∀ i, (32 ≤ i)%nat →
           flatten (np_array stego) !! i = flatten (np_array (rgb_view carrier)) !! i.
Proof.
  apply (embedding_frame disk disk "in.png" carrier (py "hi") [] (Some "out.png")
           (py "hi") carrier_on_disk carrier_wf eq_refl).
  vm_compute. lia.
Defined.

Lemma embedding_touches_lsb_only_witness :
  ∃ p w2 stego,
    hide_data "in.png" (py "hi") [] (Some "out.png") disk = (Returned (Some p), w2)
    ∧ files w2 !! p = Some stego
    ∧ shape (np_array stego) = shape (np_array (rgb_view carrier))
    ∧ size (np_array stego) = size (np_array (rgb_view carrier))
    ∧ length (flatten (np_array stego)) = length (flatten (np_array (rgb_view carrier)))
    ∧ ∀ i v, flatten (np_array (rgb_view carrier)) !! i = Some v →
        ∃ v', flatten (np_array stego) !! i = Some v'
              ∧ v' ≫ 1 = v ≫ 1 ∧ Z.abs (v' - v) <= 1 ∧ 0 <= v' <= 255.
Proof.
  apply (embedding_touches_lsb_only disk disk "in.png" carrier (py "hi") []
           (Some "out.png") (py "hi") carrier_on_disk carrier_wf eq_refl).
  vm_compute. lia.
Defined.

(** C5, as stated, fails: the bytes before the marker are 65, 128, 66,
    and extraction returns the text "A" instead of failing. *)
Lemma invalid_byte_does_not_fail :
  files (disk_with [65; 128; 66]%N) !! "out.png" = Some (stego_with [65; 128; 66]%N)
  ∧ (let binary_data :=
       extract_lsbs (flatten (np_array (stego_with [65; 128; 66]%N))) in
     find binary_data delimiter = Some 24%nat
     ∧ reconstructed (take 24 binary_data) = [65; 128; 66]%N)
  ∧ fst (extract_data "out.png" None (disk_with [65; 128; 66]%N))
    = Returned [65%N].
Proof. vm_compute. auto. Qed.

Lemma invalid_byte_ends_text_witness :
  extract_data "out.png" None (disk_with [65; 128; 66]%N)
  = (Returned [65%N], disk_with [65; 128; 66]%N).
Proof.
  apply (invalid_byte_ends_text (disk_with [65; 128; 66]%N) "out.png"
           (stego_with [65; 128; 66]%N) 24 [65%N] 128%N [66%N]).
  - reflexivity.
  - vm_compute. reflexivity.
  - vm_compute. reflexivity.
  - vm_compute. reflexivity.
  - repeat constructor. lia.
  - lia.
Defined.

Lemma empty_text_is_refused_witness :
  extract_data "out.png" None (disk_with [])
  = (Raised (Exception "Data extraction failed: No valid data could be extracted"),
     disk_with []).
Proof.
  refine (proj1 (empty_text_is_refused (disk_with []) "out.png" (stego_with [])
                   None 0 _ _ _ _ _)).
  - reflexivity.
  - reflexivity.
  - vm_compute. reflexivity.
  - vm_compute. reflexivity.
  - vm_compute. reflexivity.
Defined.

(** C8, as stated, fails: the capacity check raises inside [hide_data],
    and the caller gets the return value [None], not an error. *)
Lemma embed_failure_is_returned_as_None :
  fst (hide_data_body "in.png" (replicate 40 65%N) [] (Some "out.png") disk)
  = Raised (ValueError "Image too small. Need 336 bits, have 300")
  ∧ fst (hide_data "in.png" (replicate 40 65%N) [] (Some "out.png") disk)
    = Returned None.
Proof. vm_compute. auto. Qed.

Lemma failures_end_the_call_witness :
  hide_data "in.png" (replicate 40 65%N) [] (Some "out.png") disk
  = (Returned None, disk).
Proof.
  destruct failures_end_the_call as (_ & Hhide & _).
  rewrite (Hhide "in.png" (replicate 40 65%N) [] (Some "out.png") disk carrier
             carrier_on_disk carrier_wf).
  vm_compute. reflexivity.
Defined.

Lemma example_tag_length key nonce ciphertext :
  length (gcm_digest key nonce ciphertext) = 16%nat.
Proof.
  unfold gcm_digest, platform.
  rewrite length_take, !length_app, length_replicate. lia.
Qed.

Lemma example_utf8 b s :
  utf8_decode b = Returned s → utf8_encode s = Returned b.
Proof.
  simpl. intros Heq. simplify_eq. f_equal.
  induction b as [|x b IH]; [done|].
  rewrite !fmap_cons, IH. f_equal. by destruct x.
Qed.

Lemma example_b64 b : b64decode (b64encode b) = Returned b.
Proof. reflexivity. Qed.

Lemma example_gcm key nonce plaintext :
  gcm_decrypt key nonce (gcm_encrypt key nonce plaintext) = plaintext.
Proof. reflexivity. Qed.

Lemma example_utf8_hi b :
  utf8_encode (py "hi") = Returned b → utf8_decode b = Returned (py "hi").
Proof. simpl. intros Hb. by simplify_eq. Qed.

(** C6, as stated, fails: an envelope of 28 bytes, 20 short of its
    header, is refused with no error of its own; its exception is the
    one a full envelope raises under a wrong password. *)
Lemma short_envelope_fails_as_wrong_password :
  (match utf8_encode (replicate 28 65%N) with
   | Returned encoded =>
       match b64decode encoded with
       | Returned encrypted_bytes => length encrypted_bytes = 28%nat
       | Raised _ => False
       end
   | Raised _ => False
   end)
  ∧ fst (_decrypt_data (replicate 28 65%N) (py "a") disk)
    = Raised (Exception "Decryption failed: MAC check failed")
  ∧ length envelope = 50%nat
  ∧ fst (_decrypt_data envelope (py "b") disk)
    = Raised (Exception "Decryption failed: MAC check failed")
  ∧ fst (_decrypt_data (replicate 28 65%N) (py "a") disk)
    = fst (_decrypt_data envelope (py "b") disk).
Proof. vm_compute. auto 10. Qed.

Lemma malformed_envelope_is_rejected_witness :
  _decrypt_data (replicate 28 65%N) (py "a") disk
  = (Raised (Exception "Decryption failed: MAC check failed"),
     World (files disk) 16).
Proof.
  rewrite (proj2 (malformed_envelope_is_rejected (replicate 28 65%N) (py "a") disk
                    (Example.byte_of_N <$> replicate 28 65%N)
                    example_tag_length eq_refl)
             (Example.byte_of_N <$> replicate 28 65%N) eq_refl).
  - reflexivity.
  - vm_compute. lia.
Defined.



Lemma carrier_big_wf : ndarray_wf (np_array (rgb_view carrier_big)).
Proof.
  split; [reflexivity|]. apply Forall_forall. intros v Hv.
  apply list_elem_of_fmap in Hv as (i & -> & _). unfold uint8.
  pose proof (Nat.mod_upper_bound (i * 11) 256 ltac:(done)). lia.
Qed.

Lemma envelope_ascii : Forall (λ c, c <= 127)%N envelope.
Proof.
  apply (bool_decide_unpack (Forall (λ c, c <= 127)%N envelope)).
  vm_compute. exact I.
Qed.

Lemma roundtrip_with_password_witness :
  ∃ p w2,
    hide_data "in.png" (py "hi") (py "a") (Some "out.png") disk_big
    = (Returned (Some p), w2)
    ∧ extract_data p (Some (py "a")) w2
      = (Returned (py "hi"), World (files w2) (drawn w2 + 16)).
Proof.
  apply (roundtrip_with_password disk_big "in.png" carrier_big (py "hi") (py "a")
           (Some "out.png") envelope (World (files disk_big) 32)
           example_b64 (λ b, example_utf8 b envelope) example_utf8_hi
           example_gcm example_tag_length eq_refl carrier_big_wf eq_refl).
  - done.
  - vm_compute. reflexivity.
  - exact envelope_ascii.
  - vm_compute. lia.
Defined.

Lemma decrypt_inverts_encrypt_witness :
  _decrypt_data envelope (py "a") disk
  = (Returned (py "hi"), World (files disk) 16).
Proof.
  apply (decrypt_inverts_encrypt (py "hi") (py "a") disk envelope
           (World (files disk) 32) disk
           example_b64 (λ b, example_utf8 b envelope) example_utf8_hi
           example_gcm example_tag_length).
  vm_compute. reflexivity.
Defined.

Lemma protected_image_read_without_password_witness :
  ∃ p w2,
    hide_data "in.png" (py "hi") (py "a") (Some "out.png") disk_big
    = (Returned (Some p), w2)
    ∧ extract_data p None w2 = (Returned envelope, w2).
Proof.
  apply (protected_image_read_without_password disk_big "in.png" carrier_big
           (py "hi") (py "a") (Some "out.png") envelope (World (files disk_big) 32)
           eq_refl carrier_big_wf eq_refl).
  - vm_compute. reflexivity.
  - vm_compute. discriminate.
  - exact envelope_ascii.
  - vm_compute. lia.
Defined.

Lemma extraction_outcomes_witness :
  extract_data "out.png" None (disk_with [65; 128; 66]%N)
  = (Returned [65%N], disk_with [65; 128; 66]%N).
Proof.
  etrans; [exact (extraction_outcomes (disk_with [65; 128; 66]%N) "out.png"
                    (stego_with [65; 128; 66]%N) None eq_refl eq_refl)|].
  vm_compute. reflexivity.
Defined.

Lemma no_marker_no_data_witness :
  extract_data "in.png" None disk_tiny
  = (Raised (Exception
               "Data extraction failed: No hidden data found or data corrupted"),
     disk_tiny).
Proof.
  apply (proj2 (no_marker_no_data disk_tiny "in.png" carrier_tiny None eq_refl)).
  vm_compute. lia.
Defined.

Lemma extracted_text_is_ascii_witness :
  py "hi" ≠ [] ∧ Forall (λ c, c <= 127)%N (py "hi").
Proof.
  apply (extracted_text_is_ascii (disk_with (py "hi")) "out.png" None (py "hi")
           (disk_with (py "hi")) eq_refl).
  vm_compute. reflexivity.
Defined.


Lemma second_embedding_wins_witness :
  ∃ p1 w1 p2 w2,
    hide_data "in.png" (py "first") [] (Some "out.png") disk = (Returned (Some p1), w1)
    ∧ hide_data p1 (py "hi") [] (Some "again.png") w1 = (Returned (Some p2), w2)
    ∧ extract_data p2 None w2 = (Returned (py "hi"), w2).
Proof.
  apply (second_embedding_wins disk "in.png" carrier (py "first") (py "hi")
           (Some "out.png") (Some "again.png") carrier_on_disk carrier_wf).
  - vm_compute. lia.
  - done.
  - unfold py. simpl. repeat constructor; lia.
  - vm_compute. lia.
Defined.

Lemma image_open_failure_witness :
  hide_data "nope.png" (py "hi") (py "a") None disk = (Returned None, disk)
  ∧ extract_data "nope.png" None disk
    = (Raised (Exception "Data extraction failed: [Errno 2] No such file or directory: 'nope.png'"),
       disk)
  ∧ analyze_image_capacity "nope.png" disk
    = (Raised (Exception "Image analysis failed: [Errno 2] No such file or directory: 'nope.png'"),
       disk).
Proof.
  pose proof (image_open_failure disk "nope.png" (py "hi") (py "a") None None
                eq_refl) as Hfail.
  change (exn_msg (Image_open_error "nope.png"))
    with "[Errno 2] No such file or directory: 'nope.png'" in Hfail.
  exact Hfail.
Defined.

Lemma reading_writes_no_file_witness :
  snd (extract_data "out.png" None (disk_with (py "hi"))) = disk_with (py "hi")
  ∧ snd (_decrypt_data envelope (py "b") disk) = World (files disk) 16.
Proof.
  destruct (reading_writes_no_file "out.png" None (disk_with (py "hi")))
    as (_ & _ & Hplain & _).
  destruct (reading_writes_no_file "out.png" None disk) as (_ & _ & _ & _ & Hdraw).
  split; [by apply Hplain|].
  apply (Hdraw envelope (py "b") (Example.byte_of_N <$> envelope)
           (Example.byte_of_N <$> envelope)
           (take 32 (take 16 (hmac_key (py "b"))
                     ++ slice 0 16 (Example.byte_of_N <$> envelope)
                     ++ replicate 32 x00))).
  - reflexivity.
  - reflexivity.
  - reflexivity.
  - vm_compute. lia.
Defined.

Lemma extraction_reads_marked_prefix_witness :
  fst (extract_data "out.png" None (disk_big_with (py "hi")))
  = fst (extract_data "out.png" None (disk_with (py "hi"))).
Proof.
  apply (extraction_reads_marked_prefix (disk_with (py "hi")) (disk_big_with (py "hi"))
           "out.png" "out.png" (stego_with (py "hi")) (stego_big_with (py "hi"))
           None 16 eq_refl eq_refl).
  - vm_compute. reflexivity.
  - vm_compute. reflexivity.
Defined.

Lemma generated_id_is_valid_witness :
  validate_image_id ascii_decimal
    (generate_image_id 1700000000 [x00; x01; xab; xff; x10; x7f; x80; x99]) = true.
Proof.
  apply (proj2 (generated_id_is_valid ascii_decimal (λ _ _, eq_refl) 1700000000
                  [x00; x01; xab; xff; x10; x7f; x80; x99] eq_refl)).
  vm_compute. split; [discriminate|reflexivity].
Defined.

Lemma valid_id_shape_witness :
  validate_image_id ascii_decimal
    (generate_image_id 1700000000 [x00; x01; xab; xff; x10; x7f; x80; x99]
     ++ [10%N]) = true.
Proof.
  apply (valid_id_shape ascii_decimal
           (generate_image_id 1700000000 [x00; x01; xab; xff; x10; x7f; x80; x99])).
  - vm_compute. reflexivity.
  - vm_compute. reflexivity.
Defined.

Lemma allowed_file_by_last_extension_witness :
  allowed_file ascii_lower (py "evil.exe" ++ 46%N :: py "PNG") = true.
Proof.
  etrans; [apply (allowed_file_by_last_extension ascii_lower (py "evil.exe") (py "PNG"))|].
  - apply (bool_decide_unpack (46%N ∉ py "PNG")). vm_compute. exact I.
  - vm_compute. reflexivity.
Defined.
